(** * PeerTalk temperature sender: a shallow embedding and its properties

    Source: [raspberry-pi/peertalk_temp_sender.py].

    The script samples twelve thermocouple probes (six CHT, six EGT) through
    [SMTCReader], serialises the snapshot as JSON, wraps it in a 16-byte
    big-endian PeerTalk header and streams it over a socket from [main], a
    pair of nested retry loops.

    Modelling choices.
    - Python [int] is [Z]; [bytes] is [list byte]; [str] is [string]
      (code points below 256); a [dict] is an association list in insertion
      order, which is the order [json.dumps] writes.
    - Python [float] is [Q] together with a rounding operator [rnd] applied
      after every arithmetic operation.  [rnd] is a section variable; the
      properties that need it assume it is monotone and fixes the integers,
      which round-to-nearest on binary64 satisfies.
    - Exceptions are values of [result]; [try]/[except Exception] is a match
      that lets [KeyboardInterrupt] through.
    - The sensor boards, the random generator and the wall clock are an
      oracle [world] indexed by the number of external calls made so far;
      every call is appended to a log.
    - [main] is a transition function between the blocking calls of the
      script (connect, sendall, sleep, close); the reply of each call is
      an input. *)

From Stdlib Require Import ZArith QArith Qround List String Ascii Bool Lia.
From Stdlib Require Import Init.Byte.
Import ListNotations.

Set Warnings "-register-all".

Local Open Scope Z_scope.

(** ** Exceptions and results *)

Inductive pyexn : Type :=
| KeyboardInterrupt
| SocketTimeout
| ConnectionRefusedError
| OSError
| StructError
| TypeError
| IndexError
| KeyError
| SensorError.

(** [except Exception] catches everything but [KeyboardInterrupt], which
    derives from [BaseException]. *)
Definition is_Exception (e : pyexn) : bool :=
  match e with
  | KeyboardInterrupt => false
  | _ => true
  end.

Inductive result (A : Type) : Type :=
| Val (a : A)
| Exc (e : pyexn).

Arguments Val {A} a.
Arguments Exc {A} e.

Definition rbind {A B : Type} (r : result A) (k : A -> result B) : result B :=
  match r with
  | Val a => k a
  | Exc e => Exc e
  end.

Declare Scope result_scope.
Delimit Scope result_scope with result.
Notation "x <- r ;; k" := (rbind r (fun x => k))
  (at level 61, r at next level, right associativity) : result_scope.

(** ** Bytes and [struct.pack('>IIII', ...)] *)

Definition byte_of_Z (z : Z) : byte :=
  match Byte.of_N (Z.to_N (Z.land z 255)) with
  | Some b => b
  | None => x00
  end.

Definition Z_of_byte (b : byte) : Z := Z.of_N (Byte.to_N b).

(** Four bytes, most significant first. *)
Definition be32 (v : Z) : list byte :=
  [ byte_of_Z (Z.shiftr v 24); byte_of_Z (Z.shiftr v 16);
    byte_of_Z (Z.shiftr v 8); byte_of_Z v ].

Definition UINT32_MAX : Z := 4294967295.

(** One ['I'] field: [struct.error] when the value does not fit. *)
Definition struct_pack_I (v : Z) : result (list byte) :=
  if (0 <=? v) && (v <=? UINT32_MAX) then Val (be32 v) else Exc StructError.

Definition struct_pack_IIII (a b c d : Z) : result (list byte) :=
  (ba <- struct_pack_I a ;;
   bb <- struct_pack_I b ;;
   bc <- struct_pack_I c ;;
   bd <- struct_pack_I d ;;
   Val (ba ++ bb ++ bc ++ bd))%result.

(** The reader's side of the header: [struct.unpack('>IIII', ...)]. *)
Definition unpack_be (bs : list byte) : Z :=
  fold_left (fun acc b => acc * 256 + Z_of_byte b) bs 0.

Definition struct_unpack_IIII (bs : list byte) : option (Z * Z * Z * Z) :=
  match bs with
  | [a0; a1; a2; a3; b0; b1; b2; b3; c0; c1; c2; c3; d0; d1; d2; d3] =>
      Some (unpack_be [a0; a1; a2; a3], unpack_be [b0; b1; b2; b3],
            unpack_be [c0; c1; c2; c3], unpack_be [d0; d1; d2; d3])
  | _ => None
  end.


(** ** Python values *)

Inductive pyval : Type :=
| PyFloat (x : Q)
| PyStr (s : string)
| PyBytes (b : list byte)
| PyList (l : list pyval)
| PyDict (d : list (string * pyval)).

(** Truth value of an object: empty containers and zero are false. *)
Definition py_truthy (v : pyval) : bool :=
  match v with
  | PyFloat x => negb (Qeq_bool x 0)
  | PyStr s => negb (Nat.eqb (String.length s) 0)
  | PyBytes b => negb (Nat.eqb (List.length b) 0)
  | PyList l => negb (Nat.eqb (List.length l) 0)
  | PyDict d => negb (Nat.eqb (List.length d) 0)
  end.

(** [len(v)]. *)
Definition py_len (v : pyval) : result Z :=
  match v with
  | PyFloat _ => Exc TypeError
  | PyStr s => Val (Z.of_nat (String.length s))
  | PyBytes b => Val (Z.of_nat (List.length b))
  | PyList l => Val (Z.of_nat (List.length l))
  | PyDict d => Val (Z.of_nat (List.length d))
  end.

(** [l[i]] on a list: negative indices count from the end, anything else
    out of range raises [IndexError]. *)
Definition py_getitem {A : Type} (l : list A) (i : Z) : result A :=
  let n := Z.of_nat (List.length l) in
  let j := if i <? 0 then i + n else i in
  if (0 <=? j) && (j <? n) then
    match nth_error l (Z.to_nat j) with
    | Some a => Val a
    | None => Exc IndexError
    end
  else Exc IndexError.

Fixpoint assoc_get (d : list (string * pyval)) (k : string) : result pyval :=
  match d with
  | [] => Exc KeyError
  | (k', v) :: d' => if String.eqb k' k then Val v else assoc_get d' k
  end.

(** [d[k]]. *)
Definition py_dict_get (d : pyval) (k : string) : result pyval :=
  match d with
  | PyDict items => assoc_get items k
  | _ => Exc TypeError
  end.

(** [bytes + v]: only another bytes object can be appended. *)
Definition py_bytes_add (b : list byte) (v : pyval) : result (list byte) :=
  match v with
  | PyBytes b' => Val (b ++ b')
  | _ => Exc TypeError
  end.

(** [range(n)]. *)
Definition py_range (n : nat) : list Z := map Z.of_nat (seq 0 n).

(** ** [json.dumps] and [str.encode('utf-8')] *)

Definition dquote : string := String (ascii_of_nat 34) EmptyString.
Definition bslash : string := String (ascii_of_nat 92) EmptyString.

Definition hex_digit (n : N) : ascii :=
  nth (N.to_nat n) (list_ascii_of_string "0123456789abcdef") "0"%char.

(** One character of a JSON string with [ensure_ascii=True]. *)
Definition json_escape_char (c : ascii) : string :=
  let n := N_of_ascii c in
  if (n =? 34)%N then bslash ++ dquote
  else if (n =? 92)%N then bslash ++ bslash
  else if (n =? 10)%N then bslash ++ "n"
  else if (n =? 13)%N then bslash ++ "r"
  else if (n =? 9)%N then bslash ++ "t"
  else if (n =? 8)%N then bslash ++ "b"
  else if (n =? 12)%N then bslash ++ "f"
  else if (32 <=? n)%N && (n <=? 126)%N then String c EmptyString
  else bslash ++ "u00" ++ String (hex_digit (n / 16)) (String (hex_digit (n mod 16)) EmptyString).

Fixpoint json_escape (s : string) : string :=
  match s with
  | EmptyString => EmptyString
  | String c s' => json_escape_char c ++ json_escape s'
  end.

Definition json_string (s : string) : string := dquote ++ json_escape s ++ dquote.

(** Two bytes for a code point from 128 to 255, one below. *)
Definition utf8_char (c : ascii) : list byte :=
  let n := Z.of_N (N_of_ascii c) in
  if n <? 128 then [byte_of_Z n]
  else [byte_of_Z (Z.lor 192 (Z.shiftr n 6)); byte_of_Z (Z.lor 128 (Z.land n 63))].

Fixpoint encode_utf8 (s : string) : list byte :=
  match s with
  | EmptyString => []
  | String c s' => utf8_char c ++ encode_utf8 s'
  end.

(** ** The PeerTalk header as the protocol states it

    [spec_encode] follows the layout table of the frame codec: four
    big-endian 32-bit fields, then the payload.  It is the reference the
    sender's frame is compared with. *)
Definition spec_encode (version frame_type tag : Z) (payload : list byte) : list byte :=
  be32 version ++ be32 frame_type ++ be32 tag
    ++ be32 (Z.of_nat (List.length payload)) ++ payload.

(** ** Configuration *)

Definition IPAD_PORT : Z := 2345.
Definition FRAME_TYPE_TEMPERATURE : Z := 100.
Definition PTPROTOCOL_VERSION : Z := 1.

(** ** The outside world of the sampler *)

Inductive sensor_reply : Type :=
| Temp (celsius : Q)
| Fault.

Inductive call : Type :=
| CallGetTemp (stack channel : Z)
| CallRandom
| CallTime.

(** What the boards, the random generator and the clock answer at the
    n-th external call, and the calls made so far. *)
Record world : Type := mkWorld {
  board : nat -> Z -> Z -> sensor_reply;
  random_unit : nat -> Q;
  wall_clock : nat -> Q;
  calls : list call
}.

Definition tick (w : world) : nat := List.length (calls w).

Definition external (c : call) (w : world) : world :=
  mkWorld (board w) (random_unit w) (wall_clock w) (calls w ++ [c]).

(** Computations that read the world and may raise. *)
Definition M (A : Type) : Type := world -> result A * world.

Definition mret {A : Type} (a : A) : M A := fun w => (Val a, w).

Definition mbind {A B : Type} (m : M A) (k : A -> M B) : M B :=
  fun w =>
    match m w with
    | (Val a, w') => k a w'
    | (Exc e, w') => (Exc e, w')
    end.

Definition lift {A : Type} (r : result A) : M A := fun w => (r, w).

(** [try: body  except Exception as e: handler e]. *)
Definition try_except_Exception {A : Type} (body : M A) (handler : pyexn -> M A) : M A :=
  fun w =>
    match body w with
    | (Val a, w') => (Val a, w')
    | (Exc e, w') => if is_Exception e then handler e w' else (Exc e, w')
    end.

Declare Scope monad_scope.
Delimit Scope monad_scope with monad.
Notation "x <- m ;; k" := (mbind m (fun x => k))
  (at level 61, m at next level, right associativity) : monad_scope.

(** [for x in xs: acc = body x acc]. *)
Fixpoint for_each {A S : Type} (xs : list A) (body : A -> S -> M S) (acc : S) : M S :=
  match xs with
  | [] => mret acc
  | x :: xs' => mbind (body x acc) (for_each xs' body)
  end.

(** [handle.get_temp(channel)] of the sm_tc driver. *)
Definition get_temp (stack channel : Z) : M Q :=
  fun w =>
    (match board w (tick w) stack channel with
     | Temp c => Val c
     | Fault => Exc SensorError
     end,
     external (CallGetTemp stack channel) w).

(** [random.random()]. *)
Definition random_random : M Q :=
  fun w => (Val (random_unit w (tick w)), external CallRandom w).

(** [time.time()]. *)
Definition time_time : M Q :=
  fun w => (Val (wall_clock w (tick w)), external CallTime w).

(** ** The sensor reader *)

Record SMTCReader : Type := mkReader {
  egt_sensor : option Z;
  cht_sensor : option Z;
  hardware_available : bool;
  thermocouple_type : Z;
  egt_channel_map : list Z;
  cht_channel_map : list Z
}.

Definition is_not_None {A : Type} (o : option A) : bool :=
  match o with
  | Some _ => true
  | None => false
  end.

(** [SMTCReader.__init__]: [egt_board] and [cht_board] say whether
    [sm_tc.SMtc(0)] and [sm_tc.SMtc(1)] construct.  The loop that sets the
    sensor type of channels 1 to 8 changes no field of the reader. *)
Definition SMTCReader_init (SMTC_AVAILABLE egt_board cht_board : bool) : SMTCReader :=
  if negb SMTC_AVAILABLE then
    mkReader None None false 3 [1; 2; 3; 4; 7; 8] [1; 2; 3; 4; 7; 8]
  else
    let egt := if egt_board then Some 0 else None in
    let cht := if cht_board then Some 1 else None in
    mkReader egt cht (is_not_None egt || is_not_None cht) 3
      [1; 2; 3; 4; 7; 8] [1; 2; 3; 4; 7; 8].

Section Sender.

(** Rounding to the nearest binary64, and [repr] of a float. *)
Variable rnd : Q -> Q.
Variable float_repr : Q -> string.

Definition fadd (x y : Q) : Q := rnd (x + y).
Definition fsub (x y : Q) : Q := rnd (x - y).
Definition fmul (x y : Q) : Q := rnd (x * y).
Definition fdiv (x y : Q) : Q := rnd (x / y).

(** [random.uniform(a, b)] is [a + (b - a) * random()]. *)
Definition random_uniform (a b : Q) : M Q :=
  (r <- random_random ;; mret (fadd a (fmul (fsub b a) r)))%monad.

(** [(temp_c * 9/5) + 32]. *)
Definition celsius_to_fahrenheit (temp_c : Q) : Q :=
  fadd (fdiv (fmul temp_c 9) 5) 32.

Definition read_cht_probe (self : SMTCReader) (probe_id : Z) : M Q :=
  try_except_Exception
    (match cht_sensor self with
     | Some sensor =>
         if (probe_id <? 0) || (probe_id >=? Z.of_nat (List.length (cht_channel_map self)))
         then mret 0%Q
         else
           (channel <- lift (py_getitem (cht_channel_map self) probe_id) ;;
            temp_c <- get_temp sensor channel ;;
            mret (celsius_to_fahrenheit temp_c))%monad
     | None =>
         (u <- random_uniform 0 100 ;; mret (fadd 300 u))%monad
     end)
    (fun _ => mret 0%Q).

Definition read_egt_probe (self : SMTCReader) (probe_id : Z) : M Q :=
  try_except_Exception
    (match egt_sensor self with
     | Some sensor =>
         if (probe_id <? 0) || (probe_id >=? Z.of_nat (List.length (egt_channel_map self)))
         then mret 0%Q
         else
           (channel <- lift (py_getitem (egt_channel_map self) probe_id) ;;
            temp_c <- get_temp sensor channel ;;
            mret (celsius_to_fahrenheit temp_c))%monad
     | None =>
         (u <- random_uniform 0 300 ;; mret (fadd 1200 u))%monad
     end)
    (fun _ => mret 0%Q).

(** ** The sampler *)

Definition read_temperature_data (sensor_reader : SMTCReader) : M pyval :=
  (cht_temps <- for_each (py_range 6)
                  (fun probe_id cht_temps =>
                     temp <- read_cht_probe sensor_reader probe_id ;;
                     mret (cht_temps ++ [temp])) [] ;;
   egt_temps <- for_each (py_range 6)
                  (fun probe_id egt_temps =>
                     temp <- read_egt_probe sensor_reader probe_id ;;
                     mret (egt_temps ++ [temp])) [] ;;
   now <- time_time ;;
   mret (PyDict [ ("cht"%string, PyList (map PyFloat cht_temps));
                  ("egt"%string, PyList (map PyFloat egt_temps));
                  ("timestamp"%string, PyFloat now);
                  ("unit"%string, PyStr "F") ]))%monad.

(** ** The frame codec *)

(** [json.dumps] with the default separators; a [bytes] object is not
    serialisable. *)
Fixpoint json_dumps (v : pyval) : result string :=
  match v with
  | PyFloat x => Val (float_repr x)
  | PyStr s => Val (json_string s)
  | PyBytes _ => Exc TypeError
  | PyList l =>
      (body <- (fix items (l : list pyval) : result string :=
                  match l with
                  | [] => Val EmptyString
                  | [x] => json_dumps x
                  | x :: rest =>
                      sx <- json_dumps x ;;
                      sr <- items rest ;;
                      Val (sx ++ ", " ++ sr)%string
                  end) l ;;
       Val ("[" ++ body ++ "]")%string)%result
  | PyDict d =>
      (body <- (fix items (d : list (string * pyval)) : result string :=
                  match d with
                  | [] => Val EmptyString
                  | [(k, x)] =>
                      sx <- json_dumps x ;;
                      Val (json_string k ++ ": " ++ sx)%string
                  | (k, x) :: rest =>
                      sx <- json_dumps x ;;
                      sr <- items rest ;;
                      Val (json_string k ++ ": " ++ sx ++ ", " ++ sr)%string
                  end) d ;;
       Val ("{" ++ body ++ "}")%string)%result
  end.

Definition is_dict (v : pyval) : bool :=
  match v with
  | PyDict _ => true
  | _ => false
  end.

(** The body of [send_peertalk_frame] up to the argument of
    [sock.sendall]. *)
Definition build_frame (frame_type : Z) (payload_data : pyval) : result (list byte) :=
  (payload_bytes <- (if is_dict payload_data
                     then s <- json_dumps payload_data ;; Val (PyBytes (encode_utf8 s))
                     else Val payload_data) ;;
   n <- py_len payload_bytes ;;
   frame_header <- struct_pack_IIII PTPROTOCOL_VERSION frame_type 0 n ;;
   py_bytes_add frame_header payload_bytes)%result.

Inductive send_reply : Type :=
| SendOk
| SendError
| SendInterrupt.

(** [send_peertalk_frame(sock, frame_type, payload_data)]: the value
    returned, and what was handed to [sock.sendall]; [net] is the reply of
    the socket. *)
Definition send_peertalk_frame (frame_type : Z) (payload_data : pyval) (net : send_reply)
  : result bool * list (list byte) :=
  match build_frame frame_type payload_data with
  | Exc e => if is_Exception e then (Val false, []) else (Exc e, [])
  | Val frame =>
      match net with
      | SendOk => (Val true, [frame])
      | SendError => (Val false, [frame])
      | SendInterrupt => (Exc KeyboardInterrupt, [frame])
      end
  end.

(** ** The transport supervisor *)

Inductive socket : Type :=
| Socket (port : Z).

Inductive connect_reply : Type :=
| Connected
| ConnectTimeout
| ConnectRefused
| ConnectError
| ConnectInterrupt.

Inductive sleep_reply : Type :=
| Slept
| SleepInterrupt.

Inductive close_reply : Type :=
| Closed
| CloseError
| CloseInterrupt.

(** [connect_to_ipad()]: the three [except] clauses all return [None];
    an interrupt is not an [Exception] and passes through. *)
Definition connect_to_ipad (net : connect_reply) : result (option socket) :=
  match net with
  | Connected => Val (Some (Socket IPAD_PORT))
  | ConnectTimeout => Val None
  | ConnectRefused => Val None
  | ConnectError => Val None
  | ConnectInterrupt => Exc KeyboardInterrupt
  end.

Definition time_sleep (net : sleep_reply) : result unit :=
  match net with
  | Slept => Val tt
  | SleepInterrupt => Exc KeyboardInterrupt
  end.

Definition sock_close (net : close_reply) : result unit :=
  match net with
  | Closed => Val tt
  | CloseError => Exc OSError
  | CloseInterrupt => Exc KeyboardInterrupt
  end.

(** The reply of the environment to the blocking call the script is at. *)
Inductive reply : Type :=
| RConnect (r : connect_reply)
| RSend (r : send_reply)
| RSleep (r : sleep_reply)
| RClose (r : close_reply).

(** What the script does that can be seen from outside: its blocking calls
    with their replies, and the lines it prints. *)
Inductive action : Type :=
| Connect (r : connect_reply)
| SendAll (frame : list byte) (r : send_reply)
| Sleep (secs : Z) (r : sleep_reply)
| SockClose (r : close_reply)
| LogRetrying
| LogStreaming
| LogFrame (frame_num : nat) (live : bool) (cht_avg egt_avg : Q)
| LogFailed (frame_num : nat)
| LogStopping
| LogLoopError (frame_num : nat)
| LogDisconnected (frame_num : nat)
| LogShutdown
| LogFatal.

(** Where [main] is blocked, or how it ended. *)
Inductive pc : Type :=
| AtConnect
| AtRetrySleep
| AtSend (frame_num : nat) (temp_data : pyval)
| AtFrameSleep (frame_num : nat)
| AtClose (frame_num : nat)
| AtFatalSleep
| Exited (code : Z)
| Uncaught (e : pyexn).

Record process : Type := mkProcess {
  at_pc : pc;
  conn : option socket;
  env : world;
  out : list action
}.

Definition goto (l : pc) (p : process) : process :=
  mkProcess l (conn p) (env p) (out p).

Definition emit (acts : list action) (p : process) : process :=
  mkProcess (at_pc p) (conn p) (env p) (out p ++ acts).

Definition set_conn (c : option socket) (p : process) : process :=
  mkProcess (at_pc p) c (env p) (out p).

Definition set_env (w : world) (p : process) : process :=
  mkProcess (at_pc p) (conn p) w (out p).

(** [sum(v)] over a list of floats, starting from 0. *)
Definition py_sum (v : pyval) : result Q :=
  match v with
  | PyList l =>
      fold_left
        (fun acc x =>
           (a <- acc ;;
            match x with
            | PyFloat q => Val (fadd a q)
            | _ => Exc TypeError
            end)%result)
        l (Val 0%Q)
  | _ => Exc TypeError
  end.

(** [sum(temp_data[key])/6 if temp_data[key] else 0]. *)
Definition average6 (temp_data : pyval) (key : string) : result Q :=
  (v <- py_dict_get temp_data key ;;
   if py_truthy v then s <- py_sum v ;; Val (fdiv s 6) else Val 0%Q)%result.

(** [main] and its helpers take the module-level [sensor_reader] as their
    first argument. *)

(** The two [except] clauses of the streaming loop: both [break], so the
    script goes on to [sock.close()]. *)
Definition inner_except (frame_num : nat) (e : pyexn) (p : process) : process :=
  if is_Exception e
  then goto (AtClose frame_num) (emit [LogLoopError frame_num] p)
  else goto (AtClose frame_num) (emit [LogStopping] p).

(** The two [except] clauses of the outer loop: [sys.exit(0)] on an
    interrupt, otherwise a message and [time.sleep(5)]. *)
Definition outer_except (e : pyexn) (p : process) : process :=
  if is_Exception e
  then goto AtFatalSleep (emit [LogFatal] p)
  else goto (Exited 0) (emit [LogShutdown] p).

(** The streaming loop after [send_peertalk_frame] returned or raised. *)
Definition after_send (sensor_reader : SMTCReader) (frame_num : nat) (temp_data : pyval) (sent : result bool)
  (p : process) : process :=
  match sent with
  | Val true =>
      match (cht_avg <- average6 temp_data "cht" ;;
             egt_avg <- average6 temp_data "egt" ;;
             Val (cht_avg, egt_avg))%result with
      | Val (cht_avg, egt_avg) =>
          goto (AtFrameSleep frame_num)
            (emit [LogFrame frame_num (hardware_available sensor_reader) cht_avg egt_avg] p)
      | Exc e => inner_except frame_num e p
      end
  | Val false => goto (AtClose frame_num) (emit [LogFailed frame_num] p)
  | Exc e => inner_except frame_num e p
  end.

(** One pass of the streaming loop from its top to the next blocking call.
    When the frame cannot be built, [send_peertalk_frame] returns without
    calling [sock.sendall], so no reply is read. *)
Definition iteration (sensor_reader : SMTCReader) (frame_num : nat) (p : process) : process :=
  let (r, w') := read_temperature_data sensor_reader (env p) in
  let p' := set_env w' p in
  match r with
  | Exc e => inner_except frame_num e p'
  | Val temp_data =>
      if py_truthy temp_data then
        let frame_num' := S frame_num in
        match build_frame FRAME_TYPE_TEMPERATURE temp_data with
        | Val _ => goto (AtSend frame_num' temp_data) p'
        | Exc _ =>
            after_send sensor_reader frame_num' temp_data
              (fst (send_peertalk_frame FRAME_TYPE_TEMPERATURE temp_data SendOk)) p'
        end
      else goto (AtFrameSleep frame_num) p'
  end.

(** One blocking call of [main] returns or raises. *)
Definition step (sensor_reader : SMTCReader) (p : process) (r : reply) : option process :=
  match at_pc p, r with
  | AtConnect, RConnect net =>
      let p1 := emit [Connect net] p in
      match connect_to_ipad net with
      | Exc e => Some (outer_except e p1)
      | Val None => Some (goto AtRetrySleep (emit [LogRetrying] p1))
      | Val (Some sock) =>
          Some (iteration sensor_reader 0 (emit [LogStreaming] (set_conn (Some sock) p1)))
      end
  | AtRetrySleep, RSleep net =>
      let p1 := emit [Sleep 5 net] p in
      match time_sleep net with
      | Val _ => Some (goto AtConnect p1)
      | Exc e => Some (outer_except e p1)
      end
  | AtSend frame_num temp_data, RSend net =>
      let (sent, wire) := send_peertalk_frame FRAME_TYPE_TEMPERATURE temp_data net in
      Some (after_send sensor_reader frame_num temp_data sent
              (emit (map (fun frame => SendAll frame net) wire) p))
  | AtFrameSleep frame_num, RSleep net =>
      let p1 := emit [Sleep 1 net] p in
      match time_sleep net with
      | Val _ => Some (iteration sensor_reader frame_num p1)
      | Exc e => Some (inner_except frame_num e p1)
      end
  | AtClose frame_num, RClose net =>
      let p1 := emit [SockClose net] p in
      match sock_close net with
      | Val _ => Some (goto AtConnect (emit [LogDisconnected frame_num] (set_conn None p1)))
      | Exc e => Some (outer_except e p1)
      end
  | AtFatalSleep, RSleep net =>
      let p1 := emit [Sleep 5 net] p in
      match time_sleep net with
      | Val _ => Some (goto AtConnect p1)
      | Exc e => Some (goto (Uncaught e) p1)
      end
  | _, _ => None
  end.

Fixpoint run (sensor_reader : SMTCReader) (p : process) (rs : list reply)
  : option process :=
  match rs with
  | [] => Some p
  | r :: rs' =>
      match step sensor_reader p r with
      | Some p' => run sensor_reader p' rs'
      | None => None
      end
  end.

(** [main()] at its first [connect_to_ipad()]. *)
Definition main (w : world) : process := mkProcess AtConnect None w [].

(** ** Reference definitions used by the statements *)

(** The header a consumer reads off the front of a frame. *)
Definition decode_header (frame : list byte) : option (Z * Z * Z * Z) :=
  struct_unpack_IIII (firstn 16 frame).

(** The frames handed to [sock.sendall] during a run. *)
Fixpoint frames_sent (acts : list action) : list (list byte) :=
  match acts with
  | [] => []
  | SendAll frame _ :: acts' => frame :: frames_sent acts'
  | _ :: acts' => frames_sent acts'
  end.

(** The frame numbers of the confirmation lines printed during a run. *)
Fixpoint frames_confirmed (acts : list action) : list nat :=
  match acts with
  | [] => []
  | LogFrame n _ _ _ :: acts' => n :: frames_confirmed acts'
  | _ :: acts' => frames_confirmed acts'
  end.

(** The channels the six probes of a family are wired to. *)
Definition sweep_channels : list Z := [1; 2; 3; 4; 7; 8].

(** The simulated value of a family at the [t]-th external call. *)
Definition simulated (base span : Q) (w : world) (t : nat) : Q :=
  fadd base (fadd 0 (fmul (fsub span 0) (random_unit w t))).

(** The reading of a board channel at the [t]-th external call: the
    converted temperature, or the sentinel when the driver fails. *)
Definition measured (w : world) (t : nat) (stack channel : Z) : Q :=
  match board w t stack channel with
  | Temp c => celsius_to_fahrenheit c
  | Fault => 0%Q
  end.

Definition probe_reading (sensor : option Z) (base span : Q) (w : world) (t : nat)
  (channel : Z) : Q :=
  match sensor with
  | Some stack => measured w t stack channel
  | None => simulated base span w t
  end.

Definition probe_call (sensor : option Z) (channel : Z) : call :=
  match sensor with
  | Some stack => CallGetTemp stack channel
  | None => CallRandom
  end.

(** The six readings of a family when its sweep starts at call [t0]:
    probe [i] is read at call [i + t0] on channel [sweep_channels[i]]. *)
Definition family_readings (sensor : option Z) (base span : Q) (w : world) (t0 : nat)
  : list Q :=
  map (fun ic => probe_reading sensor base span w (fst ic + t0) (snd ic))
      (combine (seq 0 6) sweep_channels).

Definition family_calls (sensor : option Z) : list call :=
  map (probe_call sensor) sweep_channels.

(** The dict [read_temperature_data] builds. *)
Definition snapshot (cht egt : list Q) (timestamp : Q) : pyval :=
  PyDict [ ("cht"%string, PyList (map PyFloat cht));
           ("egt"%string, PyList (map PyFloat egt));
           ("timestamp"%string, PyFloat timestamp);
           ("unit"%string, PyStr "F") ].

(** The text [json.dumps] writes for a list of floats, without the
    brackets. *)
Fixpoint join_floats (l : list Q) : string :=
  match l with
  | [] => EmptyString
  | [x] => float_repr x
  | x :: rest => float_repr x ++ ", " ++ join_floats rest
  end.

Definition quoted (s : string) : string := dquote ++ s ++ dquote.

(** The JSON text of a snapshot: an object with the four keys cht, egt,
    timestamp and unit, in this order. *)
Definition snapshot_json (cht egt : list Q) (timestamp : Q) : string :=
  "{" ++ quoted "cht" ++ ": [" ++ join_floats cht ++ "], "
      ++ quoted "egt" ++ ": [" ++ join_floats egt ++ "], "
      ++ quoted "timestamp" ++ ": " ++ float_repr timestamp ++ ", "
      ++ quoted "unit" ++ ": " ++ quoted "F" ++ "}".

(** A temperature frame as a consumer sees it. *)
Definition temperature_frame (frame : list byte) : Prop :=
  exists (cht egt : list Q) (timestamp : Q),
    List.length cht = 6%nat
    /\ List.length egt = 6%nat
    /\ frame = spec_encode 1 100 0 (encode_utf8 (snapshot_json cht egt timestamp))
    /\ decode_header frame
       = Some (1, 100, 0,
               Z.of_nat (List.length (encode_utf8 (snapshot_json cht egt timestamp)))).

(** Replies that deliver an interrupt (the shutdown signal). *)
Definition is_interrupt (r : reply) : bool :=
  match r with
  | RConnect ConnectInterrupt => true
  | RSend SendInterrupt => true
  | RSleep SleepInterrupt => true
  | RClose CloseInterrupt => true
  | _ => false
  end.

(** Replies under which a connect attempt does not succeed. *)
Definition connect_fails (r : reply) : bool :=
  match r with
  | RConnect Connected => false
  | _ => true
  end.

(** A connect attempt that fails for the reason [k], then the pause. *)
Definition retry_script (ks : list connect_reply) : list reply :=
  flat_map (fun k => [RConnect k; RSleep Slept]) ks.

Definition retry_trace (ks : list connect_reply) : list action :=
  flat_map (fun k => [Connect k; LogRetrying; Sleep 5 Slept]) ks.

Definition is_failure (k : connect_reply) : bool :=
  match k with
  | ConnectTimeout | ConnectRefused | ConnectError => true
  | _ => false
  end.

(** A snapshot dict with six and six readings. *)
Definition snapshot_shaped (data : pyval) : Prop :=
  exists (cht egt : list Q) (timestamp : Q),
    data = snapshot cht egt timestamp
    /\ List.length cht = 6%nat /\ List.length egt = 6%nat.

(** What holds of [main] at every blocking call: all frames handed to the
    socket so far are temperature frames, and a pending send carries a
    snapshot. *)
Definition streaming_invariant (p : process) : Prop :=
  Forall temperature_frame (frames_sent (out p))
  /\ match at_pc p with
     | AtSend _ data => snapshot_shaped data
     | _ => True
     end.

(** Every pause in a trace lasts five seconds. *)
Definition pauses_five_seconds (a : action) : Prop :=
  match a with
  | Sleep secs _ => secs = 5
  | _ => True
  end.

(** [main] between connect attempts: at [connect_to_ipad()] or in the
    pause after a failed one, having slept five seconds at a time and sent
    nothing. *)
Definition retrying (p : process) : Prop :=
  (at_pc p = AtConnect \/ at_pc p = AtRetrySleep)
  /\ Forall pauses_five_seconds (out p)
  /\ frames_sent (out p) = [].

(** * Properties *)

(** ** Bytes *)

Lemma Z_of_byte_of_Z (z : Z) : Z_of_byte (byte_of_Z z) = Z.land z 255.
Proof.
  unfold Z_of_byte, byte_of_Z.
  assert (Hb : 0 <= Z.land z 255 < 256).
  { change 255 with (Z.ones 8). rewrite Z.land_ones by lia.
    apply Z.mod_pos_bound. reflexivity. }
  destruct (Byte.of_N (Z.to_N (Z.land z 255))) as [b|] eqn:E.
  - apply Byte.to_of_N in E. rewrite E. apply Z2N.id. lia.
  - apply Byte.of_N_None_iff in E. lia.
Qed.

Lemma unpack_be32 (v : Z) : 0 <= v <= UINT32_MAX -> unpack_be (be32 v) = v.
Proof.
  unfold UINT32_MAX. intros Hv. unfold unpack_be, be32. cbn [fold_left].
  rewrite !Z_of_byte_of_Z.
  change 255 with (Z.ones 8). rewrite !Z.land_ones by lia.
  rewrite !Z.shiftr_div_pow2 by lia.
  change (2 ^ 24) with 16777216. change (2 ^ 16) with 65536.
  change (2 ^ 8) with 256.
  Z.div_mod_to_equations. lia.
Qed.

Lemma be32_length (v : Z) : List.length (be32 v) = 4%nat.
Proof. reflexivity. Qed.

Lemma struct_pack_I_in_range (v : Z) :
  0 <= v <= UINT32_MAX -> struct_pack_I v = Val (be32 v).
Proof.
  intros [H0 H1]. unfold struct_pack_I.
  apply Z.leb_le in H0. apply Z.leb_le in H1. rewrite H0, H1. reflexivity.
Qed.

Lemma struct_pack_I_inv (v : Z) (bs : list byte) :
  struct_pack_I v = Val bs -> 0 <= v <= UINT32_MAX /\ bs = be32 v.
Proof.
  unfold struct_pack_I.
  destruct (0 <=? v) eqn:H0; destruct (v <=? UINT32_MAX) eqn:H1;
    cbn; intros H; inversion H; subst.
  apply Z.leb_le in H0. apply Z.leb_le in H1. auto.
Qed.

Lemma decode_header_spec_encode (version frame_type tag : Z) (payload : list byte) :
  0 <= version <= UINT32_MAX ->
  0 <= frame_type <= UINT32_MAX ->
  0 <= tag <= UINT32_MAX ->
  0 <= Z.of_nat (List.length payload) <= UINT32_MAX ->
  decode_header (spec_encode version frame_type tag payload)
  = Some (version, frame_type, tag, Z.of_nat (List.length payload)).
Proof.
  intros Hv Ht Hg Hn.
  unfold decode_header, spec_encode.
  rewrite <- (unpack_be32 version Hv) at 2.
  rewrite <- (unpack_be32 frame_type Ht) at 2.
  rewrite <- (unpack_be32 tag Hg) at 2.
  rewrite <- (unpack_be32 _ Hn) at 2.
  reflexivity.
Qed.

Lemma skipn_spec_encode (version frame_type tag : Z) (payload : list byte) :
  skipn 16 (spec_encode version frame_type tag payload) = payload.
Proof. reflexivity. Qed.

(** ** The frame codec *)

(** What [build_frame] returns, whatever the payload object is: when it
    returns a frame, the frame is the protocol's encoding with version 1
    and tag 0 of some byte string. *)
Lemma build_frame_inv (frame_type : Z) (payload_data : pyval) (frame : list byte) :
  build_frame frame_type payload_data = Val frame ->
  exists payload : list byte,
    frame = spec_encode 1 frame_type 0 payload
    /\ 0 <= frame_type <= UINT32_MAX
    /\ 0 <= Z.of_nat (List.length payload) <= UINT32_MAX
    /\ (if is_dict payload_data
        then exists s, json_dumps payload_data = Val s /\ payload = encode_utf8 s
        else payload_data = PyBytes payload).
Proof.
  unfold build_frame, struct_pack_IIII, PTPROTOCOL_VERSION. intros H.
  assert (Hpb : exists pb,
             (if is_dict payload_data
              then (s <- json_dumps payload_data ;; Val (PyBytes (encode_utf8 s)))%result
              else Val payload_data) = Val pb).
  { destruct (if is_dict payload_data then _ else _) as [pb|e] eqn:E.
    - eauto.
    - cbn in H. discriminate. }
  destruct Hpb as [pb Hpb]. rewrite Hpb in H. cbn [rbind] in H.
  destruct (py_len pb) as [n|e] eqn:Hlen; cbn [rbind] in H; [|discriminate].
  change (struct_pack_I 1) with (Val (A := list byte) (be32 1)) in H.
  cbn [rbind] in H.
  destruct (struct_pack_I frame_type) as [bt|e] eqn:Ht; cbn [rbind] in H; [|discriminate].
  change (struct_pack_I 0) with (Val (A := list byte) (be32 0)) in H.
  cbn [rbind] in H.
  destruct (struct_pack_I n) as [bn|e] eqn:Hn; cbn [rbind] in H; [|discriminate].
  apply struct_pack_I_inv in Ht. destruct Ht as [Hft ->].
  apply struct_pack_I_inv in Hn. destruct Hn as [Hnr ->].
  destruct pb as [x|s|payload|l|d]; unfold py_bytes_add in H; try discriminate.
  unfold py_len in Hlen.
  assert (Hn' : n = Z.of_nat (List.length payload)) by congruence.
  assert (Hf : frame = (be32 1 ++ be32 frame_type ++ be32 0 ++ be32 n) ++ payload)
    by congruence.
  subst n frame.
  exists payload. split.
  { unfold spec_encode. rewrite <- !app_assoc. reflexivity. }
  split; [exact Hft|]. split; [exact Hnr|].
  destruct (is_dict payload_data) eqn:Hd.
  - destruct (json_dumps payload_data) as [s|e] eqn:Hj; cbn in Hpb; [|discriminate].
    exists s. split; [reflexivity|]. inversion Hpb. reflexivity.
  - inversion Hpb. reflexivity.
Qed.

Lemma build_frame_bytes (frame_type : Z) (payload : list byte) :
  0 <= frame_type <= UINT32_MAX ->
  Z.of_nat (List.length payload) <= UINT32_MAX ->
  build_frame frame_type (PyBytes payload) = Val (spec_encode 1 frame_type 0 payload).
Proof.
  intros Hft Hn. unfold build_frame, struct_pack_IIII, PTPROTOCOL_VERSION.
  cbn [is_dict rbind py_len].
  rewrite (struct_pack_I_in_range frame_type Hft).
  rewrite (struct_pack_I_in_range (Z.of_nat (List.length payload))) by lia.
  change (struct_pack_I 1) with (Val (A := list byte) (be32 1)).
  change (struct_pack_I 0) with (Val (A := list byte) (be32 0)).
  cbn [rbind py_bytes_add]. unfold spec_encode. rewrite <- ?app_assoc. reflexivity.
Qed.

(** C1, as amended.  [send_peertalk_frame] has no tag parameter and packs
    the constant 0: for every frame type that fits an unsigned 32-bit field
    and every payload byte string whose length does, the frame handed to
    [sock.sendall] is the 16-byte big-endian header (version 1, the frame
    type, tag 0, the payload length) followed immediately by the payload;
    decoding its first 16 bytes gives back exactly these four fields, and
    the length field is the byte length of what follows the header. *)
Theorem send_peertalk_frame_layout (frame_type : Z) (payload : list byte) (net : send_reply) :
  0 <= frame_type <= UINT32_MAX ->
  Z.of_nat (List.length payload) <= UINT32_MAX ->
  exists frame : list byte,
    snd (send_peertalk_frame frame_type (PyBytes payload) net) = [frame]
    /\ frame = be32 1 ++ be32 frame_type ++ be32 0
                 ++ be32 (Z.of_nat (List.length payload)) ++ payload
    /\ List.length (firstn 16 frame) = 16%nat
    /\ skipn 16 frame = payload
    /\ decode_header frame
       = Some (1, frame_type, 0, Z.of_nat (List.length (skipn 16 frame))).
Proof.
  intros Hft Hn. exists (spec_encode 1 frame_type 0 payload).
  unfold send_peertalk_frame. rewrite (build_frame_bytes _ _ Hft Hn).
  split; [destruct net; reflexivity|].
  split; [reflexivity|]. split; [reflexivity|].
  rewrite skipn_spec_encode. split; [reflexivity|].
  apply decode_header_spec_encode; unfold UINT32_MAX in *; lia.
Qed.

(** C10.  Whatever the frame type, the payload object and the reply of the
    socket, every frame [send_peertalk_frame] hands to [sock.sendall]
    carries version 1 and tag 0: the four bytes at offset 8 are zero.  The
    function takes a frame type and a payload only, so no argument reaches
    the tag field. *)
Theorem send_peertalk_frame_tag_zero (frame_type : Z) (payload_data : pyval)
  (net : send_reply) (frame : list byte) :
  In frame (snd (send_peertalk_frame frame_type payload_data net)) ->
  firstn 4 (skipn 8 frame) = [x00; x00; x00; x00]
  /\ exists size : Z, decode_header frame = Some (1, frame_type, 0, size).
Proof.
  unfold send_peertalk_frame.
  destruct (build_frame frame_type payload_data) as [f|e] eqn:Hb.
  - intros Hin.
    assert (frame = f) by (destruct net; cbn in Hin; intuition congruence).
    subst f. apply build_frame_inv in Hb.
    destruct Hb as (payload & -> & Hft & Hn & _).
    split; [reflexivity|].
    exists (Z.of_nat (List.length payload)).
    apply decode_header_spec_encode; unfold UINT32_MAX in *; lia.
  - destruct (is_Exception e); cbn; intros [].
Qed.

(** ** The channel readers *)

Lemma tick_external (c : call) (w : world) : tick (external c w) = S (tick w).
Proof. unfold tick, external. cbn. rewrite length_app. cbn. lia. Qed.

Lemma probe_reading_external (sensor : option Z) (base span : Q) (c : call)
  (w : world) (t : nat) (channel : Z) :
  probe_reading sensor base span (external c w) t channel
  = probe_reading sensor base span w t channel.
Proof. reflexivity. Qed.

Lemma wall_clock_external (c : call) (w : world) :
  wall_clock (external c w) = wall_clock w.
Proof. reflexivity. Qed.

Lemma external_mkWorld (c : call) (b : nat -> Z -> Z -> sensor_reply)
  (r k : nat -> Q) (cs : list call) :
  external c (mkWorld b r k cs) = mkWorld b r k (cs ++ [c]).
Proof. reflexivity. Qed.

(** A read never raises: the body only raises [IndexError] or the
    driver's error, and the handler returns the sentinel. *)
Lemma read_cht_probe_total (self : SMTCReader) (probe_id : Z) (w : world) :
  exists (v : Q) (w' : world), read_cht_probe self probe_id w = (Val v, w').
Proof.
  unfold read_cht_probe, try_except_Exception, random_uniform, mbind, lift,
    get_temp, random_random, mret.
  destruct (cht_sensor self) as [sensor|]; [|eauto].
  destruct ((probe_id <? 0) || _); [eauto|].
  unfold py_getitem.
  destruct (_ && _); [|cbn; eauto].
  destruct (nth_error _ _) as [channel|]; [|cbn; eauto].
  destruct (board w (tick w) sensor channel); cbn; eauto.
Qed.

Lemma read_egt_probe_total (self : SMTCReader) (probe_id : Z) (w : world) :
  exists (v : Q) (w' : world), read_egt_probe self probe_id w = (Val v, w').
Proof.
  unfold read_egt_probe, try_except_Exception, random_uniform, mbind, lift,
    get_temp, random_random, mret.
  destruct (egt_sensor self) as [sensor|]; [|eauto].
  destruct ((probe_id <? 0) || _); [eauto|].
  unfold py_getitem.
  destruct (_ && _); [|cbn; eauto].
  destruct (nth_error _ _) as [channel|]; [|cbn; eauto].
  destruct (board w (tick w) sensor channel); cbn; eauto.
Qed.

Lemma out_of_range_guard (l : list Z) (probe_id : Z) :
  probe_id < 0 \/ Z.of_nat (List.length l) <= probe_id ->
  (probe_id <? 0) || (probe_id >=? Z.of_nat (List.length l)) = true.
Proof.
  intros [H|H].
  - apply Z.ltb_lt in H. rewrite H. reflexivity.
  - apply orb_true_iff. right. apply Z.geb_le. exact H.
Qed.

(** With a board, an index outside the channel map is answered before
    anything is asked of the board. *)
Lemma read_cht_probe_guarded (self : SMTCReader) (sensor probe_id : Z) (w : world) :
  cht_sensor self = Some sensor ->
  probe_id < 0 \/ Z.of_nat (List.length (cht_channel_map self)) <= probe_id ->
  read_cht_probe self probe_id w = (Val 0%Q, w).
Proof.
  intros Hs Hr. unfold read_cht_probe, try_except_Exception.
  rewrite Hs, (out_of_range_guard _ _ Hr). reflexivity.
Qed.

Lemma read_egt_probe_guarded (self : SMTCReader) (sensor probe_id : Z) (w : world) :
  egt_sensor self = Some sensor ->
  probe_id < 0 \/ Z.of_nat (List.length (egt_channel_map self)) <= probe_id ->
  read_egt_probe self probe_id w = (Val 0%Q, w).
Proof.
  intros Hs Hr. unfold read_egt_probe, try_except_Exception.
  rewrite Hs, (out_of_range_guard _ _ Hr). reflexivity.
Qed.

(** Without a board the index is not looked at. *)
Lemma read_cht_probe_simulated (self : SMTCReader) (probe_id : Z) (w : world) :
  cht_sensor self = None ->
  read_cht_probe self probe_id w
  = (Val (simulated 300 100 w (tick w)), external CallRandom w).
Proof.
  intros Hs. unfold read_cht_probe, try_except_Exception. rewrite Hs. reflexivity.
Qed.

Lemma read_egt_probe_simulated (self : SMTCReader) (probe_id : Z) (w : world) :
  egt_sensor self = None ->
  read_egt_probe self probe_id w
  = (Val (simulated 1200 300 w (tick w)), external CallRandom w).
Proof.
  intros Hs. unfold read_egt_probe, try_except_Exception. rewrite Hs. reflexivity.
Qed.

(** With a board and an index inside the map: one [get_temp] on the mapped
    channel, converted, or the sentinel when the driver raises. *)
Lemma read_cht_probe_measured (self : SMTCReader) (sensor probe_id channel : Z)
  (w : world) :
  cht_sensor self = Some sensor ->
  0 <= probe_id < Z.of_nat (List.length (cht_channel_map self)) ->
  nth_error (cht_channel_map self) (Z.to_nat probe_id) = Some channel ->
  read_cht_probe self probe_id w
  = (Val (measured w (tick w) sensor channel), external (CallGetTemp sensor channel) w).
Proof.
  intros Hs Hr Hn.
  unfold read_cht_probe, try_except_Exception, mbind, lift, get_temp, mret,
    py_getitem, measured.
  rewrite Hs.
  replace (probe_id <? 0) with false by (symmetry; apply Z.ltb_ge; lia).
  replace (probe_id >=? _) with false by (symmetry; rewrite Z.geb_leb; apply Z.leb_gt; lia).
  cbn [orb].
  replace (0 <=? probe_id) with true by (symmetry; apply Z.leb_le; lia).
  replace (probe_id <? _) with true by (symmetry; apply Z.ltb_lt; lia).
  cbn [andb]. rewrite Hn.
  destruct (board w (tick w) sensor channel); reflexivity.
Qed.

Lemma read_egt_probe_measured (self : SMTCReader) (sensor probe_id channel : Z)
  (w : world) :
  egt_sensor self = Some sensor ->
  0 <= probe_id < Z.of_nat (List.length (egt_channel_map self)) ->
  nth_error (egt_channel_map self) (Z.to_nat probe_id) = Some channel ->
  read_egt_probe self probe_id w
  = (Val (measured w (tick w) sensor channel), external (CallGetTemp sensor channel) w).
Proof.
  intros Hs Hr Hn.
  unfold read_egt_probe, try_except_Exception, mbind, lift, get_temp, mret,
    py_getitem, measured.
  rewrite Hs.
  replace (probe_id <? 0) with false by (symmetry; apply Z.ltb_ge; lia).
  replace (probe_id >=? _) with false by (symmetry; rewrite Z.geb_leb; apply Z.leb_gt; lia).
  cbn [orb].
  replace (0 <=? probe_id) with true by (symmetry; apply Z.leb_le; lia).
  replace (probe_id <? _) with true by (symmetry; apply Z.ltb_lt; lia).
  cbn [andb]. rewrite Hn.
  destruct (board w (tick w) sensor channel); reflexivity.
Qed.

(** ** The sampler *)

Lemma init_channel_maps (available egt_board cht_board : bool) :
  cht_channel_map (SMTCReader_init available egt_board cht_board) = sweep_channels
  /\ egt_channel_map (SMTCReader_init available egt_board cht_board) = sweep_channels.
Proof. destruct available, egt_board, cht_board; split; reflexivity. Qed.

Lemma read_cht_probe_init (available egt_board cht_board : bool) (i : nat)
  (channel : Z) (w : world) :
  nth_error sweep_channels i = Some channel ->
  read_cht_probe (SMTCReader_init available egt_board cht_board) (Z.of_nat i) w
  = (Val (probe_reading (cht_sensor (SMTCReader_init available egt_board cht_board))
            300 100 w (tick w) channel),
     external (probe_call (cht_sensor (SMTCReader_init available egt_board cht_board))
                 channel) w).
Proof.
  intros Hn. set (self := SMTCReader_init available egt_board cht_board).
  assert (Hi : (i < 6)%nat).
  { change 6%nat with (List.length sweep_channels).
    apply nth_error_Some. rewrite Hn. discriminate. }
  destruct (init_channel_maps available egt_board cht_board) as [Hm _].
  fold self in Hm.
  destruct (cht_sensor self) as [sensor|] eqn:Hs.
  - apply read_cht_probe_measured; rewrite ?Hm, ?Nat2Z.id; cbn; auto; lia.
  - apply read_cht_probe_simulated; assumption.
Qed.

Lemma read_egt_probe_init (available egt_board cht_board : bool) (i : nat)
  (channel : Z) (w : world) :
  nth_error sweep_channels i = Some channel ->
  read_egt_probe (SMTCReader_init available egt_board cht_board) (Z.of_nat i) w
  = (Val (probe_reading (egt_sensor (SMTCReader_init available egt_board cht_board))
            1200 300 w (tick w) channel),
     external (probe_call (egt_sensor (SMTCReader_init available egt_board cht_board))
                 channel) w).
Proof.
  intros Hn. set (self := SMTCReader_init available egt_board cht_board).
  assert (Hi : (i < 6)%nat).
  { change 6%nat with (List.length sweep_channels).
    apply nth_error_Some. rewrite Hn. discriminate. }
  destruct (init_channel_maps available egt_board cht_board) as [_ Hm].
  fold self in Hm.
  destruct (egt_sensor self) as [sensor|] eqn:Hs.
  - apply read_egt_probe_measured; rewrite ?Hm, ?Nat2Z.id; cbn; auto; lia.
  - apply read_egt_probe_simulated; assumption.
Qed.

(** One sweep, in full: the twelve readings in probe order, the clock read
    after them, and the calls made. *)
Lemma read_temperature_data_init (available egt_board cht_board : bool) (w : world) :
  let self := SMTCReader_init available egt_board cht_board in
  read_temperature_data self w
  = (Val (snapshot
            (family_readings (cht_sensor self) 300 100 w (tick w))
            (family_readings (egt_sensor self) 1200 300 w (6 + tick w))
            (wall_clock w (12 + tick w))),
     mkWorld (board w) (random_unit w) (wall_clock w)
       (calls w ++ family_calls (cht_sensor self) ++ family_calls (egt_sensor self)
          ++ [CallTime])).
Proof.
  intros self. subst self. unfold read_temperature_data, py_range.
  cbn [seq map for_each]. unfold mbind, mret, time_time.
  destruct w as [b r k cs].
  rewrite (read_cht_probe_init _ _ _ 0 1 _ eq_refl).
  rewrite (read_cht_probe_init _ _ _ 1 2 _ eq_refl).
  rewrite (read_cht_probe_init _ _ _ 2 3 _ eq_refl).
  rewrite (read_cht_probe_init _ _ _ 3 4 _ eq_refl).
  rewrite (read_cht_probe_init _ _ _ 4 7 _ eq_refl).
  rewrite (read_cht_probe_init _ _ _ 5 8 _ eq_refl).
  rewrite (read_egt_probe_init _ _ _ 0 1 _ eq_refl).
  rewrite (read_egt_probe_init _ _ _ 1 2 _ eq_refl).
  rewrite (read_egt_probe_init _ _ _ 2 3 _ eq_refl).
  rewrite (read_egt_probe_init _ _ _ 3 4 _ eq_refl).
  rewrite (read_egt_probe_init _ _ _ 4 7 _ eq_refl).
  rewrite (read_egt_probe_init _ _ _ 5 8 _ eq_refl).
  rewrite !tick_external, !probe_reading_external, !wall_clock_external.
  rewrite !external_mkWorld.
  unfold snapshot, family_readings, family_calls, sweep_channels.
  cbn [seq combine map fst snd Nat.add].
  rewrite <- !app_assoc. reflexivity.
Qed.

(** C4.  In every mode of the reader (driver missing, either board missing,
    both present) and in every world, [read_temperature_data] returns, and
    what it returns is the dict with the keys cht, egt, timestamp and unit:
    six CHT readings and six EGT readings, probe 0 first, each the reading
    of its own probe (the converted board temperature, the sentinel when
    the driver raised, the simulated value without a board), a timestamp
    and the unit tag F.  No exception comes out of it. *)
Theorem read_temperature_data_complete (available egt_board cht_board : bool)
  (w : world) :
  let self := SMTCReader_init available egt_board cht_board in
  exists (cht egt : list Q) (timestamp : Q) (w' : world),
    read_temperature_data self w = (Val (snapshot cht egt timestamp), w')
    /\ List.length cht = 6%nat
    /\ List.length egt = 6%nat
    /\ cht = family_readings (cht_sensor self) 300 100 w (tick w)
    /\ egt = family_readings (egt_sensor self) 1200 300 w (6 + tick w)
    /\ py_dict_get (snapshot cht egt timestamp) "timestamp" = Val (PyFloat timestamp)
    /\ py_dict_get (snapshot cht egt timestamp) "unit" = Val (PyStr "F").
Proof.
  intros self. subst self.
  eexists _, _, _, _. split.
  - apply read_temperature_data_init.
  - repeat split; reflexivity.
Qed.

(** C5, as amended.  The clock is read exactly once per sweep, and it is the
    last external call of the sweep: the twelve probe reads come first, none
    of them reads the clock, and the timestamp is the clock's value after
    them. *)
Theorem timestamp_taken_after_readings (available egt_board cht_board : bool)
  (w : world) :
  let self := SMTCReader_init available egt_board cht_board in
  exists (cht egt : list Q) (w' : world) (reads : list call),
    read_temperature_data self w
    = (Val (snapshot cht egt (wall_clock w (12 + tick w))), w')
    /\ calls w' = calls w ++ reads ++ [CallTime]
    /\ List.length reads = 12%nat
    /\ ~ In CallTime reads.
Proof.
  intros self. subst self.
  eexists _, _, _, (family_calls _ ++ family_calls _). split; [|split; [|split]].
  - apply read_temperature_data_init.
  - cbn [calls]. rewrite <- app_assoc. reflexivity.
  - reflexivity.
  - unfold family_calls, sweep_channels, probe_call. cbn [map app In].
    destruct (cht_sensor _), (egt_sensor _); intuition discriminate.
Qed.

(** C2, as amended.  For a probe index outside the channel map (negative,
    or 6 and above) neither read raises.  With the family's board present
    the read returns the sentinel 0.0 and asks nothing of the board; with
    the board absent the index is not looked at and the read returns the
    simulated value of the family, as for any other index. *)
Theorem out_of_range_probe_reads (available egt_board cht_board : bool)
  (probe_id : Z) (w : world) :
  probe_id < 0 \/ 6 <= probe_id ->
  let self := SMTCReader_init available egt_board cht_board in
  read_cht_probe self probe_id w
  = (if is_not_None (cht_sensor self)
     then (Val 0%Q, w)
     else (Val (simulated 300 100 w (tick w)), external CallRandom w))
  /\ read_egt_probe self probe_id w
     = (if is_not_None (egt_sensor self)
        then (Val 0%Q, w)
        else (Val (simulated 1200 300 w (tick w)), external CallRandom w)).
Proof.
  intros Hr self.
  destruct (init_channel_maps available egt_board cht_board) as [Hc He].
  fold self in Hc, He. split.
  - destruct (cht_sensor self) as [sensor|] eqn:Hs; cbn [is_not_None].
    + apply (read_cht_probe_guarded self sensor); [exact Hs|].
      rewrite Hc. exact Hr.
    + apply read_cht_probe_simulated. exact Hs.
  - destruct (egt_sensor self) as [sensor|] eqn:Hs; cbn [is_not_None].
    + apply (read_egt_probe_guarded self sensor); [exact Hs|].
      rewrite He. exact Hr.
    + apply read_egt_probe_simulated. exact Hs.
Qed.

(** ** Simulated values *)

(** Round-to-nearest is monotone and leaves the integers up to 2^53
    unchanged. *)
Hypothesis rnd_monotone : forall x y : Q, (x <= y)%Q -> (rnd x <= rnd y)%Q.
Hypothesis rnd_integer :
  forall z : Z, Z.abs z <= 2 ^ 53 -> (rnd (inject_Z z) == inject_Z z)%Q.

Lemma rnd_between (lo hi : Z) (x : Q) :
  Z.abs lo <= 2 ^ 53 -> Z.abs hi <= 2 ^ 53 ->
  (inject_Z lo <= x <= inject_Z hi)%Q ->
  (inject_Z lo <= rnd x <= inject_Z hi)%Q.
Proof.
  intros Hlo Hhi [H1 H2]. split.
  - rewrite <- (rnd_integer lo Hlo). apply rnd_monotone. exact H1.
  - rewrite <- (rnd_integer hi Hhi). apply rnd_monotone. exact H2.
Qed.

Lemma simulated_between (base span : Z) (w : world) (t : nat) :
  0 <= base -> 0 <= span -> base + span <= 2 ^ 53 ->
  (0 <= random_unit w t)%Q -> (random_unit w t < 1)%Q ->
  (inject_Z base <= simulated (inject_Z base) (inject_Z span) w t
   <= inject_Z (base + span))%Q.
Proof.
  intros Hb Hs Hsum Hr0 Hr1. unfold simulated, fadd, fmul, fsub.
  set (r := random_unit w t) in *.
  assert (Hspan : (inject_Z span <= rnd (inject_Z span - 0) <= inject_Z span)%Q).
  { apply rnd_between; try lia. unfold Qminus. rewrite Qplus_0_r.
    split; apply Qle_refl. }
  set (s := rnd (inject_Z span - 0)) in *.
  assert (Hs0 : (0 <= inject_Z span)%Q).
  { change 0%Q with (inject_Z 0). rewrite <- Zle_Qle. exact Hs. }
  assert (Hprod : (inject_Z 0 <= s * r <= inject_Z span)%Q).
  { split.
    - change (inject_Z 0) with 0%Q. apply Qmult_le_0_compat; [|exact Hr0].
      apply Qle_trans with (inject_Z span); [exact Hs0|apply Hspan].
    - apply Qle_trans with (s * 1)%Q.
      + rewrite !(Qmult_comm s). apply Qmult_le_compat_r.
        * apply Qlt_le_weak. exact Hr1.
        * apply Qle_trans with (inject_Z span); [exact Hs0|apply Hspan].
      + rewrite Qmult_1_r. apply Hspan. }
  apply (rnd_between 0 span) in Hprod; try lia.
  set (m := rnd (s * r)) in *.
  assert (Hu : (inject_Z 0 <= 0 + m <= inject_Z span)%Q).
  { rewrite Qplus_0_l. exact Hprod. }
  apply (rnd_between 0 span) in Hu; try lia.
  set (u := rnd (0 + m)) in *.
  apply rnd_between; try lia.
  rewrite inject_Z_plus. destruct Hu as [Hu0 Hu1]. split.
  - rewrite <- (Qplus_0_r (inject_Z base)) at 1.
    apply Qplus_le_r. exact Hu0.
  - apply Qplus_le_r. exact Hu1.
Qed.

(** C8.  With no board at all, whatever the probe index and wherever in a
    run the sample is taken, a CHT read returns a value between 300 and 400
    and an EGT read one between 1200 and 1500, provided [random.random()]
    answers in [0, 1). *)
Theorem simulated_readings_bounded (self : SMTCReader) (probe_id : Z) (w : world) :
  cht_sensor self = None ->
  egt_sensor self = None ->
  (forall t : nat, (0 <= random_unit w t)%Q /\ (random_unit w t < 1)%Q) ->
  (exists (v : Q) (w' : world),
      read_cht_probe self probe_id w = (Val v, w') /\ (300 <= v <= 400)%Q)
  /\ (exists (v : Q) (w' : world),
         read_egt_probe self probe_id w = (Val v, w') /\ (1200 <= v <= 1500)%Q).
Proof.
  intros Hc He Hr. destruct (Hr (tick w)) as [Hr0 Hr1]. split.
  - eexists _, _. split; [apply read_cht_probe_simulated; exact Hc|].
    apply (simulated_between 300 100 w (tick w)); lia || assumption.
  - eexists _, _. split; [apply read_egt_probe_simulated; exact He|].
    apply (simulated_between 1200 300 w (tick w)); lia || assumption.
Qed.

(** ** The payload *)

Lemma sweep_total (self : SMTCReader)
  (read : SMTCReader -> Z -> M Q)
  (Hread : forall probe_id w, exists v w', read self probe_id w = (Val v, w'))
  (w : world) :
  exists (temps : list Q) (w' : world),
    for_each (py_range 6)
      (fun probe_id acc => (temp <- read self probe_id ;; mret (acc ++ [temp]))%monad)
      [] w = (Val temps, w')
    /\ List.length temps = 6%nat.
Proof.
  unfold py_range. cbn [seq map for_each]. unfold mbind, mret.
  destruct (Hread (Z.of_nat 0) w) as (v0 & w0 & ->).
  destruct (Hread (Z.of_nat 1) w0) as (v1 & w1 & ->).
  destruct (Hread (Z.of_nat 2) w1) as (v2 & w2 & ->).
  destruct (Hread (Z.of_nat 3) w2) as (v3 & w3 & ->).
  destruct (Hread (Z.of_nat 4) w3) as (v4 & w4 & ->).
  destruct (Hread (Z.of_nat 5) w4) as (v5 & w5 & ->).
  eexists _, _. split; reflexivity.
Qed.

(** Whatever the reader record holds, a sweep returns a snapshot with six
    and six readings. *)
Lemma read_temperature_data_total (self : SMTCReader) (w : world) :
  exists (cht egt : list Q) (timestamp : Q) (w' : world),
    read_temperature_data self w = (Val (snapshot cht egt timestamp), w')
    /\ List.length cht = 6%nat /\ List.length egt = 6%nat.
Proof.
  unfold read_temperature_data.
  destruct (sweep_total self read_cht_probe (read_cht_probe_total self) w)
    as (cht & w1 & Hc & Hlc).
  destruct (sweep_total self read_egt_probe (read_egt_probe_total self) w1)
    as (egt & w2 & He & Hle).
  unfold mbind at 1. rewrite Hc. unfold mbind at 1. rewrite He.
  unfold mbind, time_time, mret. eexists _, _, _, _.
  split; [reflexivity|]. split; assumption.
Qed.

Lemma json_dumps_floats (l : list Q) :
  json_dumps (PyList (map PyFloat l)) = Val ("[" ++ join_floats l ++ "]")%string.
Proof.
  cbn [json_dumps].
  match goal with
  | |- rbind ?items _ = _ => assert (H : items = Val (join_floats l))
  end.
  { induction l as [|x [|y rest] IH]; [reflexivity|reflexivity|].
    cbn [map] in *. rewrite IH. reflexivity. }
  rewrite H. reflexivity.
Qed.

Lemma string_app_assoc (a b c : string) :
  ((a ++ b) ++ c)%string = (a ++ b ++ c)%string.
Proof.
  induction a as [|x a IH]; [reflexivity|].
  cbn [append]. rewrite IH. reflexivity.
Qed.

Lemma json_dumps_dict4 (k1 k2 k3 k4 : string) (v1 v2 v3 v4 : pyval) :
  json_dumps (PyDict [(k1, v1); (k2, v2); (k3, v3); (k4, v4)])
  = (s1 <- json_dumps v1 ;;
     s2 <- json_dumps v2 ;;
     s3 <- json_dumps v3 ;;
     s4 <- json_dumps v4 ;;
     Val ("{" ++ json_string k1 ++ ": " ++ s1 ++ ", "
              ++ json_string k2 ++ ": " ++ s2 ++ ", "
              ++ json_string k3 ++ ": " ++ s3 ++ ", "
              ++ json_string k4 ++ ": " ++ s4 ++ "}")%string)%result.
Proof.
  cbn [json_dumps].
  destruct (json_dumps v1) as [s1|e1]; [|reflexivity].
  destruct (json_dumps v2) as [s2|e2]; [|reflexivity].
  destruct (json_dumps v3) as [s3|e3]; [|reflexivity].
  destruct (json_dumps v4) as [s4|e4]; [|reflexivity].
  cbn [rbind]. f_equal.
  rewrite !string_app_assoc. reflexivity.
Qed.

Lemma json_dumps_snapshot (cht egt : list Q) (timestamp : Q) :
  json_dumps (snapshot cht egt timestamp) = Val (snapshot_json cht egt timestamp).
Proof.
  unfold snapshot. rewrite json_dumps_dict4, !json_dumps_floats.
  cbn [rbind json_dumps]. unfold snapshot_json, quoted, json_string.
  f_equal. cbn [json_escape].
  rewrite !string_app_assoc. reflexivity.
Qed.

Lemma build_frame_snapshot (cht egt : list Q) (timestamp : Q) (frame : list byte) :
  List.length cht = 6%nat -> List.length egt = 6%nat ->
  build_frame FRAME_TYPE_TEMPERATURE (snapshot cht egt timestamp) = Val frame ->
  temperature_frame frame.
Proof.
  intros Hc He Hb. apply build_frame_inv in Hb.
  destruct Hb as (payload & -> & Hft & Hn & Hd).
  cbn [is_dict snapshot] in Hd. destruct Hd as (s & Hs & ->).
  change (PyDict _) with (snapshot cht egt timestamp) in Hs.
  rewrite json_dumps_snapshot in Hs. inversion Hs; subst s.
  exists cht, egt, timestamp. split; [exact Hc|]. split; [exact He|].
  split; [reflexivity|].
  apply decode_header_spec_encode; unfold UINT32_MAX in *; lia.
Qed.

(** ** The transport supervisor *)

Lemma frames_sent_app (a b : list action) :
  frames_sent (a ++ b) = frames_sent a ++ frames_sent b.
Proof.
  induction a as [|x a IH]; [reflexivity|].
  destruct x; cbn; rewrite ?IH; reflexivity.
Qed.

Lemma frames_confirmed_app (a b : list action) :
  frames_confirmed (a ++ b) = frames_confirmed a ++ frames_confirmed b.
Proof.
  induction a as [|x a IH]; [reflexivity|].
  destruct x; cbn; rewrite ?IH; reflexivity.
Qed.

Lemma py_sum_floats (l : list Q) :
  exists total : Q, py_sum (PyList (map PyFloat l)) = Val total.
Proof.
  unfold py_sum. generalize 0%Q as acc.
  induction l as [|x l IH]; intros acc; cbn [map fold_left rbind].
  - eauto.
  - apply IH.
Qed.

Lemma average6_floats (d : list (string * pyval)) (key : string) (l : list Q) :
  assoc_get d key = Val (PyList (map PyFloat l)) ->
  exists avg : Q, average6 (PyDict d) key = Val avg.
Proof.
  intros H. unfold average6, py_dict_get. rewrite H. cbn [rbind].
  destruct (py_truthy _); [|eauto].
  destruct (py_sum_floats l) as (total & ->). cbn [rbind]. eauto.
Qed.

(** After a frame of a snapshot went out, the averages are computed and the
    confirmation line is printed. *)
Lemma after_send_confirmed (sensor_reader : SMTCReader) (frame_num : nat)
  (cht egt : list Q) (timestamp : Q) (p : process) :
  exists cht_avg egt_avg : Q,
    after_send sensor_reader frame_num (snapshot cht egt timestamp) (Val true) p
    = mkProcess (AtFrameSleep frame_num) (conn p) (env p)
        (out p ++ [LogFrame frame_num (hardware_available sensor_reader) cht_avg egt_avg]).
Proof.
  unfold after_send, snapshot.
  set (d := [("cht"%string, PyList (map PyFloat cht));
             ("egt"%string, PyList (map PyFloat egt));
             ("timestamp"%string, PyFloat timestamp);
             ("unit"%string, PyStr "F")]).
  destruct (average6_floats d "cht" cht eq_refl) as (c & ->).
  destruct (average6_floats d "egt" egt eq_refl) as (e & ->).
  cbn [rbind]. exists c, e. reflexivity.
Qed.

(** One pass of the loop samples a full snapshot, and then either blocks in
    [sock.sendall] with it or, when no frame can be built, leaves the loop
    with one line printed. *)
Lemma iteration_cases (sensor_reader : SMTCReader) (frame_num : nat) (p : process) :
  exists (cht egt : list Q) (timestamp : Q) (w' : world),
    List.length cht = 6%nat /\ List.length egt = 6%nat
    /\ read_temperature_data sensor_reader (env p)
       = (Val (snapshot cht egt timestamp), w')
    /\ ((exists frame,
            build_frame FRAME_TYPE_TEMPERATURE (snapshot cht egt timestamp) = Val frame
            /\ iteration sensor_reader frame_num p
               = mkProcess (AtSend (S frame_num) (snapshot cht egt timestamp))
                   (conn p) w' (out p))
        \/ (exists e line,
              build_frame FRAME_TYPE_TEMPERATURE (snapshot cht egt timestamp) = Exc e
              /\ iteration sensor_reader frame_num p
                 = mkProcess (AtClose (S frame_num)) (conn p) w' (out p ++ [line])
              /\ frames_sent [line] = [])).
Proof.
  destruct (read_temperature_data_total sensor_reader (env p))
    as (cht & egt & ts & w' & Hr & Hc & He).
  exists cht, egt, ts, w'. split; [exact Hc|]. split; [exact He|].
  split; [exact Hr|].
  unfold iteration. rewrite Hr.
  change (py_truthy (snapshot cht egt ts)) with true. cbv iota.
  unfold send_peertalk_frame.
  destruct (build_frame FRAME_TYPE_TEMPERATURE (snapshot cht egt ts)) as [frame|e].
  - left. exists frame. split; reflexivity.
  - right. exists e.
    destruct (is_Exception e) eqn:Hx; cbn [fst after_send].
    + exists (LogFailed (S frame_num)). repeat split.
    + unfold inner_except. rewrite Hx.
      exists LogStopping. repeat split.
Qed.

Lemma Forall_frames_log (o : list action) (lines : list action) :
  frames_sent lines = [] ->
  Forall temperature_frame (frames_sent o) ->
  Forall temperature_frame (frames_sent (o ++ lines)).
Proof.
  intros Hl Ho. rewrite frames_sent_app, Hl, app_nil_r. exact Ho.
Qed.

Lemma iteration_invariant (sensor_reader : SMTCReader) (frame_num : nat) (p : process) :
  Forall temperature_frame (frames_sent (out p)) ->
  streaming_invariant (iteration sensor_reader frame_num p).
Proof.
  intros Ho.
  destruct (iteration_cases sensor_reader frame_num p)
    as (cht & egt & ts & w' & Hc & He & _ & [(frame & _ & ->)|(e & line & _ & -> & Hl)]).
  - split; [exact Ho|]. cbn. exists cht, egt, ts. auto.
  - split; [|exact I]. cbn [out]. apply Forall_frames_log; assumption.
Qed.

Ltac unfold_moves :=
  unfold outer_except, inner_except, goto, emit, set_conn, set_env;
  cbn [is_Exception at_pc out conn env time_sleep sock_close connect_to_ipad].

Ltac only_lines :=
  unfold streaming_invariant; unfold_moves;
  split;
  [ rewrite <- ?app_assoc; apply Forall_frames_log; [reflexivity|assumption]
  | exact I ].

Lemma step_invariant (sensor_reader : SMTCReader) (p p' : process) (r : reply) :
  streaming_invariant p ->
  step sensor_reader p r = Some p' ->
  streaming_invariant p'.
Proof.
  destruct p as [l c w o]. intros [Ho Hl]. cbn [out at_pc] in Ho, Hl.
  unfold step. cbn [at_pc].
  destruct l, r; try discriminate.
  - (* connect_to_ipad *)
    destruct r; cbn [connect_to_ipad]; intros H; inversion H; subst p'; clear H;
      try only_lines.
    apply iteration_invariant. unfold_moves.
    rewrite <- ?app_assoc. apply Forall_frames_log; [reflexivity|assumption].
  - (* time.sleep(5) after a failed connect *)
    destruct r; cbn [time_sleep]; intros H; inversion H; subst p'; clear H;
      only_lines.
  - (* sock.sendall *)
    destruct Hl as (cht & egt & ts & -> & Hc & He).
    unfold send_peertalk_frame.
    destruct (build_frame FRAME_TYPE_TEMPERATURE (snapshot cht egt ts))
      as [frame|e] eqn:Hb.
    + pose proof (build_frame_snapshot cht egt ts frame Hc He Hb) as Hf.
      assert (Hsent : forall net,
                 Forall temperature_frame (frames_sent (o ++ [SendAll frame net]))).
      { intros net. rewrite frames_sent_app. apply Forall_app. split; [exact Ho|].
        cbn. constructor; [exact Hf|constructor]. }
      destruct r; cbn [map]; intros H; inversion H; subst p'; clear H.
      * destruct (after_send_confirmed sensor_reader frame_num cht egt ts
                    (emit [SendAll frame SendOk]
                       (mkProcess (AtSend frame_num (snapshot cht egt ts)) c w o)))
          as (ca & ea & Hconf).
        unfold after_send in Hconf. rewrite Hconf.
        split; [|exact I]. unfold_moves.
        apply Forall_frames_log; [reflexivity|apply Hsent].
      * unfold after_send. split; [|exact I]. unfold_moves.
        apply Forall_frames_log; [reflexivity|apply Hsent].
      * unfold after_send. split; [|exact I]. unfold_moves.
        apply Forall_frames_log; [reflexivity|apply Hsent].
    + destruct (is_Exception e) eqn:Hx; cbn [map]; intros H; inversion H; subst p'; clear H.
      * unfold after_send. only_lines.
      * unfold after_send, inner_except. rewrite Hx. only_lines.
  - (* time.sleep(1) *)
    destruct r; cbn [time_sleep]; intros H; inversion H; subst p'; clear H.
    + apply iteration_invariant. unfold_moves.
      apply Forall_frames_log; [reflexivity|assumption].
    + only_lines.
  - (* sock.close() *)
    destruct r; cbn [sock_close]; intros H; inversion H; subst p'; clear H;
      only_lines.
  - (* time.sleep(5) after a fatal error *)
    destruct r; cbn [time_sleep]; intros H; inversion H; subst p'; clear H;
      only_lines.
Qed.

Lemma run_invariant (sensor_reader : SMTCReader) (rs : list reply) (p p' : process) :
  streaming_invariant p ->
  run sensor_reader p rs = Some p' ->
  streaming_invariant p'.
Proof.
  revert p. induction rs as [|r rs IH]; intros p Hp; cbn [run].
  - intros H. inversion H. subst. exact Hp.
  - destruct (step sensor_reader p r) as [p1|] eqn:Hs; [|discriminate].
    apply IH. exact (step_invariant _ _ _ _ Hp Hs).
Qed.

(** C9.  Every frame [main] ever hands to the socket, whatever the reader,
    the world and the replies of the network, is a type-100 frame whose
    payload is the UTF-8 encoding of the JSON text of an object with exactly
    the keys cht, egt, timestamp and unit, in this order: cht and egt are
    arrays of six numbers, timestamp is a number, unit is the string F. *)
Theorem temperature_frames_carry_snapshot_json (sensor_reader : SMTCReader)
  (w : world) (rs : list reply) (p : process) (frame : list byte) :
  run sensor_reader (main w) rs = Some p ->
  In frame (frames_sent (out p)) ->
  exists (cht egt : list Q) (timestamp : Q),
    List.length cht = 6%nat
    /\ List.length egt = 6%nat
    /\ frame = spec_encode 1 100 0 (encode_utf8 (snapshot_json cht egt timestamp))
    /\ decode_header frame
       = Some (1, 100, 0,
               Z.of_nat (List.length (encode_utf8 (snapshot_json cht egt timestamp)))).
Proof.
  intros Hrun Hin.
  assert (Hinv : streaming_invariant (main w)).
  { split; [constructor|exact I]. }
  destruct (run_invariant _ _ _ _ Hinv Hrun) as [Hall _].
  rewrite Forall_forall in Hall. exact (Hall frame Hin).
Qed.

Lemma run_app (sensor_reader : SMTCReader) (rs1 rs2 : list reply) (p : process) :
  run sensor_reader p (rs1 ++ rs2)
  = match run sensor_reader p rs1 with
    | Some p1 => run sensor_reader p1 rs2
    | None => None
    end.
Proof.
  revert p. induction rs1 as [|r rs1 IH]; intros p; cbn [run app].
  - reflexivity.
  - destruct (step sensor_reader p r); [apply IH|reflexivity].
Qed.

Lemma retry_once (sensor_reader : SMTCReader) (k : connect_reply)
  (c : option socket) (w : world) (o : list action) :
  is_failure k = true ->
  run sensor_reader (mkProcess AtConnect c w o) [RConnect k; RSleep Slept]
  = Some (mkProcess AtConnect c w (o ++ [Connect k; LogRetrying; Sleep 5 Slept])).
Proof.
  intros Hk. destruct k; try discriminate; cbn [run step at_pc connect_to_ipad];
    unfold_moves; cbn [step at_pc time_sleep]; unfold_moves;
    rewrite <- !app_assoc; reflexivity.
Qed.

(** A run of failed connects, each followed by its pause, ends where it
    began. *)
Lemma retry_loop (sensor_reader : SMTCReader) (ks : list connect_reply)
  (c : option socket) (w : world) (o : list action) :
  forallb is_failure ks = true ->
  run sensor_reader (mkProcess AtConnect c w o) (retry_script ks)
  = Some (mkProcess AtConnect c w (o ++ retry_trace ks)).
Proof.
  revert o. induction ks as [|k ks IH]; intros o Hk.
  - cbn. rewrite app_nil_r. reflexivity.
  - cbn [forallb] in Hk. apply andb_true_iff in Hk. destruct Hk as [Hk Hks].
    change (retry_script (k :: ks)) with ([RConnect k; RSleep Slept] ++ retry_script ks).
    change (retry_trace (k :: ks))
      with ([Connect k; LogRetrying; Sleep 5 Slept] ++ retry_trace ks).
    rewrite run_app, (retry_once _ k c w o Hk), (IH _ Hks), <- app_assoc.
    reflexivity.
Qed.

Lemma step_retrying (sensor_reader : SMTCReader) (p p' : process) (r : reply) :
  retrying p ->
  connect_fails r = true ->
  step sensor_reader p r = Some p' ->
  (retrying p' /\ is_interrupt r = false)
  \/ (at_pc p' = Exited 0 /\ is_interrupt r = true
      /\ Forall pauses_five_seconds (out p') /\ frames_sent (out p') = []).
Proof.
  destruct p as [l c w o]. intros ([Hl|Hl] & Hs & Hf) Hr; cbn [at_pc out] in *;
    subst l; unfold step; cbn [at_pc]; destruct r as [k|k|k|k]; try discriminate;
    destruct k; try discriminate; unfold_moves; intros H; inversion H; subst p';
    clear H; unfold retrying; cbn [at_pc out].
  all: try (left; split; [|reflexivity]; split; [auto|]; cbn [out]; split;
            [ rewrite <- ?app_assoc; apply Forall_app; split;
              [assumption|repeat constructor]
            | rewrite <- ?app_assoc, frames_sent_app, Hf; reflexivity ]).
  all: right; split; [reflexivity|]; split; [reflexivity|]; cbn [out]; split;
    [ rewrite <- ?app_assoc; apply Forall_app; split;
      [assumption|repeat constructor]
    | rewrite <- ?app_assoc, frames_sent_app, Hf; reflexivity ].
Qed.

Lemma step_exited (sensor_reader : SMTCReader) (p : process) (r : reply) (code : Z) :
  at_pc p = Exited code -> step sensor_reader p r = None.
Proof.
  intros H. unfold step. rewrite H. destruct r; reflexivity.
Qed.

Lemma run_retrying (sensor_reader : SMTCReader) (rs : list reply) (p p' : process) :
  retrying p ->
  forallb connect_fails rs = true ->
  run sensor_reader p rs = Some p' ->
  (at_pc p' = AtConnect \/ at_pc p' = AtRetrySleep \/ at_pc p' = Exited 0)
  /\ (at_pc p' = Exited 0 -> existsb is_interrupt rs = true)
  /\ Forall pauses_five_seconds (out p')
  /\ frames_sent (out p') = [].
Proof.
  revert p. induction rs as [|r rs IH]; intros p Hp Hrs; cbn [run].
  - intros H. inversion H; subst p'. destruct Hp as ([Hl|Hl] & Hs & Hf).
    + repeat split; auto. rewrite Hl. discriminate.
    + repeat split; auto. rewrite Hl. discriminate.
  - cbn [forallb] in Hrs. apply andb_true_iff in Hrs. destruct Hrs as [Hr Hrs].
    destruct (step sensor_reader p r) as [p1|] eqn:Hstep; [|discriminate].
    destruct (step_retrying _ _ _ _ Hp Hr Hstep) as [[Hp1 Hi]|(Hl & Hi & Hs & Hf)].
    + intros Hrun. destruct (IH p1 Hp1 Hrs Hrun) as (H1 & H2 & H3 & H4).
      repeat split; auto. intros He. cbn [existsb]. rewrite (H2 He).
      apply orb_true_r.
    + destruct rs as [|r2 rs]; cbn [run].
      * intros H. inversion H; subst p'. repeat split; auto.
        intros _. cbn [existsb]. rewrite Hi. reflexivity.
      * rewrite (step_exited _ _ _ _ Hl). discriminate.
Qed.

(** C7.  While every connect attempt fails, for whichever of the three
    reasons, [main] alternates the attempt and a five-second pause, as many
    times as one likes, and is back at the next attempt.  Under any replies
    in which no connect succeeds, [main] is at a connect attempt, in the
    pause, or has exited with code 0; it has exited only if an interrupt was
    delivered; no exception escapes it; every pause was five seconds. *)
Theorem connect_failures_retry_forever (sensor_reader : SMTCReader) (w : world) :
  (forall ks : list connect_reply,
      forallb is_failure ks = true ->
      run sensor_reader (main w) (retry_script ks)
      = Some (mkProcess AtConnect None w (retry_trace ks)))
  /\ (forall (rs : list reply) (p : process),
         forallb connect_fails rs = true ->
         run sensor_reader (main w) rs = Some p ->
         (at_pc p = AtConnect \/ at_pc p = AtRetrySleep \/ at_pc p = Exited 0)
         /\ (forall e, at_pc p <> Uncaught e)
         /\ (at_pc p = Exited 0 -> existsb is_interrupt rs = true)
         /\ Forall pauses_five_seconds (out p)
         /\ frames_sent (out p) = []).
Proof.
  split.
  - intros ks Hk. unfold main. rewrite (retry_loop _ ks None w [] Hk). reflexivity.
  - intros rs p Hrs Hrun.
    assert (Hinit : retrying (main w)).
    { split; [left; reflexivity|]. split; [constructor|reflexivity]. }
    destruct (run_retrying _ _ _ _ Hinit Hrs Hrun) as (H1 & H2 & H3 & H4).
    repeat split; auto.
    intros e He. destruct H1 as [H|[H|H]]; rewrite H in He; discriminate.
Qed.

(** ** Streaming *)

(** [repr] of a binary64 has at most 24 characters. *)
Hypothesis float_repr_short : forall x : Q, (String.length (float_repr x) <= 32)%nat.

Lemma string_length_app (a b : string) :
  String.length (a ++ b) = (String.length a + String.length b)%nat.
Proof.
  induction a as [|x a IH]; [reflexivity|].
  cbn [append String.length]. rewrite IH. reflexivity.
Qed.

Lemma encode_utf8_length (s : string) :
  (List.length (encode_utf8 s) <= 2 * String.length s)%nat.
Proof.
  induction s as [|c s IH]; [cbn; lia|].
  cbn [encode_utf8 String.length]. rewrite length_app.
  assert (List.length (utf8_char c) <= 2)%nat.
  { unfold utf8_char. destruct (_ <? 128); cbn; lia. }
  lia.
Qed.

Lemma snapshot_json_length (cht egt : list Q) (timestamp : Q) :
  List.length cht = 6%nat -> List.length egt = 6%nat ->
  (String.length (snapshot_json cht egt timestamp) <= 600)%nat.
Proof.
  intros Hc He.
  destruct cht as [|c0 [|c1 [|c2 [|c3 [|c4 [|c5 [|]]]]]]]; try discriminate.
  destruct egt as [|e0 [|e1 [|e2 [|e3 [|e4 [|e5 [|]]]]]]]; try discriminate.
  unfold snapshot_json, quoted, dquote. cbn [join_floats].
  rewrite !string_length_app. cbn [String.length].
  pose proof (float_repr_short c0). pose proof (float_repr_short c1).
  pose proof (float_repr_short c2). pose proof (float_repr_short c3).
  pose proof (float_repr_short c4). pose proof (float_repr_short c5).
  pose proof (float_repr_short e0). pose proof (float_repr_short e1).
  pose proof (float_repr_short e2). pose proof (float_repr_short e3).
  pose proof (float_repr_short e4). pose proof (float_repr_short e5).
  pose proof (float_repr_short timestamp).
  lia.
Qed.

(** A frame can always be built from a snapshot. *)
Lemma build_frame_snapshot_ok (cht egt : list Q) (timestamp : Q) :
  List.length cht = 6%nat -> List.length egt = 6%nat ->
  exists frame : list byte,
    build_frame FRAME_TYPE_TEMPERATURE (snapshot cht egt timestamp) = Val frame.
Proof.
  intros Hc He. unfold build_frame.
  change (is_dict (snapshot cht egt timestamp)) with true. cbv iota.
  rewrite json_dumps_snapshot. cbn [rbind py_len].
  pose proof (snapshot_json_length cht egt timestamp Hc He) as Hlen.
  pose proof (encode_utf8_length (snapshot_json cht egt timestamp)) as Hutf.
  unfold struct_pack_IIII, PTPROTOCOL_VERSION, FRAME_TYPE_TEMPERATURE.
  rewrite (struct_pack_I_in_range 1) by (unfold UINT32_MAX; lia).
  rewrite (struct_pack_I_in_range 100) by (unfold UINT32_MAX; lia).
  rewrite (struct_pack_I_in_range 0) by (unfold UINT32_MAX; lia).
  rewrite (struct_pack_I_in_range (Z.of_nat _)) by (unfold UINT32_MAX; lia).
  cbn [rbind py_bytes_add]. eauto.
Qed.

Lemma iteration_sends (sensor_reader : SMTCReader) (frame_num : nat) (p : process) :
  exists (cht egt : list Q) (timestamp : Q) (w' : world) (frame : list byte),
    List.length cht = 6%nat /\ List.length egt = 6%nat
    /\ build_frame FRAME_TYPE_TEMPERATURE (snapshot cht egt timestamp) = Val frame
    /\ iteration sensor_reader frame_num p
       = mkProcess (AtSend (S frame_num) (snapshot cht egt timestamp))
           (conn p) w' (out p).
Proof.
  destruct (iteration_cases sensor_reader frame_num p)
    as (cht & egt & ts & w' & Hc & He & _ & [(frame & Hb & Hi)|(e & line & Hb & _)]).
  - exists cht, egt, ts, w', frame. auto.
  - destruct (build_frame_snapshot_ok cht egt ts Hc He) as (frame & Hf).
    congruence.
Qed.

Lemma step_send_ok (sensor_reader : SMTCReader) (frame_num : nat)
  (cht egt : list Q) (timestamp : Q) (frame : list byte)
  (c : option socket) (w : world) (o : list action) :
  build_frame FRAME_TYPE_TEMPERATURE (snapshot cht egt timestamp) = Val frame ->
  exists cht_avg egt_avg : Q,
    step sensor_reader (mkProcess (AtSend frame_num (snapshot cht egt timestamp)) c w o)
      (RSend SendOk)
    = Some (mkProcess (AtFrameSleep frame_num) c w
              (o ++ [SendAll frame SendOk;
                     LogFrame frame_num (hardware_available sensor_reader)
                       cht_avg egt_avg])).
Proof.
  intros Hb. unfold step. cbn [at_pc]. unfold send_peertalk_frame. rewrite Hb.
  cbn [map].
  destruct (after_send_confirmed sensor_reader frame_num cht egt timestamp
              (emit [SendAll frame SendOk]
                 (mkProcess (AtSend frame_num (snapshot cht egt timestamp)) c w o)))
    as (ca & ea & ->).
  exists ca, ea. unfold_moves. rewrite <- app_assoc. reflexivity.
Qed.

Lemma step_send_error (sensor_reader : SMTCReader) (frame_num : nat)
  (data : pyval) (frame : list byte)
  (c : option socket) (w : world) (o : list action) :
  build_frame FRAME_TYPE_TEMPERATURE data = Val frame ->
  step sensor_reader (mkProcess (AtSend frame_num data) c w o) (RSend SendError)
  = Some (mkProcess (AtClose frame_num) c w
            (o ++ [SendAll frame SendError; LogFailed frame_num])).
Proof.
  intros Hb. unfold step. cbn [at_pc]. unfold send_peertalk_frame. rewrite Hb.
  cbn [map after_send]. unfold_moves. rewrite <- app_assoc. reflexivity.
Qed.

(** C6.  From [main]'s start: the connect succeeds, the first two writes
    succeed, the third fails, the close succeeds.  Then exactly the frames
    numbered 1 and 2 were confirmed; right after the failed write come the
    failure line and [sock.close()], with no sleep and no further write; the
    connection is closed; and [main] is back at [connect_to_ipad()], where a
    fresh attempt is accepted. *)
Theorem third_write_failure_reconnects (sensor_reader : SMTCReader) (w : world) :
  exists (p : process) (f1 f2 f3 : list byte) (a1 b1 a2 b2 : Q),
    run sensor_reader (main w)
      [RConnect Connected; RSend SendOk; RSleep Slept; RSend SendOk; RSleep Slept;
       RSend SendError; RClose Closed]
    = Some p
    /\ at_pc p = AtConnect
    /\ conn p = None
    /\ frames_confirmed (out p) = [1%nat; 2%nat]
    /\ out p
       = [Connect Connected; LogStreaming;
          SendAll f1 SendOk; LogFrame 1 (hardware_available sensor_reader) a1 b1;
          Sleep 1 Slept;
          SendAll f2 SendOk; LogFrame 2 (hardware_available sensor_reader) a2 b2;
          Sleep 1 Slept;
          SendAll f3 SendError; LogFailed 3;
          SockClose Closed; LogDisconnected 3]
    /\ (forall k : connect_reply, step sensor_reader p (RConnect k) <> None).
Proof.
  unfold main. cbn [run]. unfold step at 1. cbn [at_pc connect_to_ipad].
  destruct (iteration_sends sensor_reader 0
              (emit [LogStreaming]
                 (set_conn (Some (Socket IPAD_PORT))
                    (emit [Connect Connected] (mkProcess AtConnect None w [])))))
    as (c1 & e1 & t1 & w1 & f1 & _ & _ & Hb1 & ->).
  unfold_moves. cbn [app].
  destruct (step_send_ok sensor_reader 1 c1 e1 t1 f1 (Some (Socket IPAD_PORT)) w1
              [Connect Connected; LogStreaming] Hb1) as (a1 & b1 & ->).
  unfold step at 1. cbn [at_pc time_sleep].
  match goal with
  | |- context [iteration sensor_reader 1 ?q] =>
      destruct (iteration_sends sensor_reader 1 q)
        as (c2 & e2 & t2 & w2 & f2 & _ & _ & Hb2 & ->)
  end.
  unfold_moves. cbn [app].
  match goal with
  | |- context [step sensor_reader (mkProcess (AtSend 2 _) ?c ?w ?o) (RSend SendOk)] =>
      destruct (step_send_ok sensor_reader 2 c2 e2 t2 f2 c w o Hb2) as (a2 & b2 & ->)
  end.
  unfold step at 1. cbn [at_pc time_sleep].
  match goal with
  | |- context [iteration sensor_reader 2 ?q] =>
      destruct (iteration_sends sensor_reader 2 q)
        as (c3 & e3 & t3 & w3 & f3 & _ & _ & Hb3 & ->)
  end.
  unfold_moves. cbn [app].
  rewrite (step_send_error sensor_reader 3 _ f3 _ _ _ Hb3).
  unfold step at 1. cbn [at_pc sock_close]. unfold_moves. cbn [app].
  eexists _, f1, f2, f3, a1, b1, a2, b2.
  split; [reflexivity|]. cbn [at_pc conn out].
  repeat split. intros k. unfold step. cbn [at_pc].
  destruct k; cbn [connect_to_ipad]; discriminate.
Qed.

(** C3 fails on the code.  An interrupt during the inter-frame sleep is
    caught by the streaming loop, which only leaves that loop: the socket is
    closed, and then [main] is at [connect_to_ipad()] again instead of
    exiting.  When that connect succeeds a new connection is open and
    streaming starts over. *)
Theorem interrupt_in_frame_sleep_reconnects (sensor_reader : SMTCReader)
  (frame_num : nat) (c : option socket) (w : world) (o : list action) :
  run sensor_reader (mkProcess (AtFrameSleep frame_num) c w o)
    [RSleep SleepInterrupt; RClose Closed]
  = Some (mkProcess AtConnect None w
            (o ++ [Sleep 1 SleepInterrupt; LogStopping; SockClose Closed;
                   LogDisconnected frame_num]))
  /\ exists (p : process) (lines : list action),
       run sensor_reader (mkProcess (AtFrameSleep frame_num) c w o)
         [RSleep SleepInterrupt; RClose Closed; RConnect Connected]
       = Some p
       /\ (forall code : Z, at_pc p <> Exited code)
       /\ conn p = Some (Socket IPAD_PORT)
       /\ out p = o ++ [Sleep 1 SleepInterrupt; LogStopping; SockClose Closed;
                        LogDisconnected frame_num; Connect Connected; LogStreaming]
                    ++ lines.
Proof.
  assert (H2 : run sensor_reader (mkProcess (AtFrameSleep frame_num) c w o)
                 [RSleep SleepInterrupt; RClose Closed]
               = Some (mkProcess AtConnect None w
                         (o ++ [Sleep 1 SleepInterrupt; LogStopping; SockClose Closed;
                                LogDisconnected frame_num]))).
  { cbn [run]. unfold step at 1. cbn [at_pc time_sleep]. unfold_moves.
    unfold step at 1. cbn [at_pc sock_close]. unfold_moves.
    rewrite <- !app_assoc. reflexivity. }
  split; [exact H2|].
  change [RSleep SleepInterrupt; RClose Closed; RConnect Connected]
    with ([RSleep SleepInterrupt; RClose Closed] ++ [RConnect Connected]).
  rewrite run_app, H2. cbn [run]. unfold step. cbn [at_pc connect_to_ipad].
  match goal with
  | |- context [iteration sensor_reader 0 ?q] =>
      destruct (iteration_cases sensor_reader 0 q)
        as (cht & egt & ts & w' & _ & _ & _
            & [(frame & _ & ->)|(e & line & _ & -> & _)])
  end.
  - eexists _, []. split; [reflexivity|]. unfold_moves.
    repeat split; try discriminate.
    rewrite app_nil_r, <- !app_assoc. reflexivity.
  - eexists _, [line]. split; [reflexivity|]. unfold_moves.
    repeat split; try discriminate.
    rewrite <- !app_assoc. reflexivity.
Qed.


(** * More of the script *)

(** ** What [send_peertalk_frame] returns *)

(** The consumer's side of the stream: one frame off the front, and what
    follows it. *)
Definition parse_frame (stream : list byte)
  : option (Z * Z * Z * list byte * list byte) :=
  match decode_header stream with
  | Some (version, frame_type, tag, size) =>
      let body := skipn 16 stream in
      if Z.of_nat (List.length body) <? size then None
      else Some (version, frame_type, tag,
                 firstn (Z.to_nat size) body, skipn (Z.to_nat size) body)
  | None => None
  end.

(** All the frames of a stream, as (frame type, payload) pairs. *)
Fixpoint parse_stream (fuel : nat) (stream : list byte)
  : option (list (Z * list byte)) :=
  match stream with
  | [] => Some []
  | _ :: _ =>
      match fuel with
      | O => None
      | S fuel' =>
          match parse_frame stream with
          | Some (_, frame_type, _, payload, rest) =>
              match parse_stream fuel' rest with
              | Some frames => Some ((frame_type, payload) :: frames)
              | None => None
              end
          | None => None
          end
      end
  end.

Lemma json_dumps_error : forall (v : pyval) (e : pyexn),
  json_dumps v = Exc e -> e = TypeError.
Proof.
  fix IH 1. intros [x|s|b|l|d] e; cbn [json_dumps].
  - discriminate.
  - discriminate.
  - congruence.
  - match goal with
    | |- rbind (?items l) _ = _ -> _ =>
        assert (Hitems : forall e', items l = Exc e' -> e' = TypeError)
    end.
    { induction l as [|x [|y rest] IHl]; intros e' H.
      - discriminate.
      - exact (IH x e' H).
      - destruct (json_dumps x) as [sx|ex] eqn:Hx.
        + cbn [rbind] in H.
          match type of H with
          | rbind ?r _ = _ => destruct r as [sr|er] eqn:Hr
          end.
          * discriminate.
          * cbn [rbind] in H. apply IHl. congruence.
        + cbn [rbind] in H. apply (IH x). congruence. }
    match goal with
    | |- rbind ?r _ = _ -> _ => destruct r as [body|e'] eqn:Hb
    end.
    + discriminate.
    + cbn [rbind]. intros H. apply Hitems. congruence.
  - match goal with
    | |- rbind (?items d) _ = _ -> _ =>
        assert (Hitems : forall e', items d = Exc e' -> e' = TypeError)
    end.
    { induction d as [|[k x] [|[k' y] rest] IHd]; intros e' H.
      - discriminate.
      - destruct (json_dumps x) as [sx|ex] eqn:Hx; cbn [rbind] in H.
        + discriminate.
        + apply (IH x). congruence.
      - destruct (json_dumps x) as [sx|ex] eqn:Hx.
        + cbn [rbind] in H.
          match type of H with
          | rbind ?r _ = _ => destruct r as [sr|er] eqn:Hr
          end.
          * discriminate.
          * cbn [rbind] in H. apply IHd. congruence.
        + cbn [rbind] in H. apply (IH x). congruence. }
    match goal with
    | |- rbind ?r _ = _ -> _ => destruct r as [body|e'] eqn:Hb
    end.
    + discriminate.
    + cbn [rbind]. intros H. apply Hitems. congruence.
Qed.

Lemma struct_pack_I_error (v : Z) (e : pyexn) :
  struct_pack_I v = Exc e -> e = StructError.
Proof.
  unfold struct_pack_I. destruct (_ && _); congruence.
Qed.

(** Whatever goes wrong while the frame is built is an [Exception]. *)
Lemma build_frame_error (frame_type : Z) (payload_data : pyval) (e : pyexn) :
  build_frame frame_type payload_data = Exc e ->
  e = TypeError \/ e = StructError.
Proof.
  unfold build_frame, struct_pack_IIII. intros H.
  destruct (if is_dict payload_data then _ else _) as [pb|e0] eqn:Hpb.
  - cbn [rbind] in H.
    destruct (py_len pb) as [n|e1] eqn:Hlen; cbn [rbind] in H.
    + destruct (struct_pack_I PTPROTOCOL_VERSION) as [b1|e1] eqn:H1; cbn [rbind] in H;
        [|right; inversion H; subst; exact (struct_pack_I_error _ _ H1)].
      destruct (struct_pack_I frame_type) as [b2|e2] eqn:H2; cbn [rbind] in H;
        [|right; inversion H; subst; exact (struct_pack_I_error _ _ H2)].
      destruct (struct_pack_I 0) as [b3|e3] eqn:H3; cbn [rbind] in H;
        [|right; inversion H; subst; exact (struct_pack_I_error _ _ H3)].
      destruct (struct_pack_I n) as [b4|e4] eqn:H4; cbn [rbind] in H;
        [|right; inversion H; subst; exact (struct_pack_I_error _ _ H4)].
      left. destruct pb; cbn in H; congruence.
    + left. destruct pb; cbn in Hlen; congruence.
  - cbn [rbind] in H. left.
    destruct (is_dict payload_data); [|discriminate].
    destruct (json_dumps payload_data) as [s|e1] eqn:Hj; cbn [rbind] in Hpb;
      [discriminate|].
    assert (e1 = TypeError) by exact (json_dumps_error _ _ Hj). congruence.
Qed.

(** X1.  [send_peertalk_frame] returns True exactly when a frame could be
    built and the socket took it; the only thing it ever raises is the
    interrupt delivered inside [sock.sendall]; and nothing is handed to the
    socket exactly when no frame could be built. *)
Theorem send_peertalk_frame_result (frame_type : Z) (payload_data : pyval)
  (net : send_reply) :
  (fst (send_peertalk_frame frame_type payload_data net) = Val true
   <-> (exists frame, build_frame frame_type payload_data = Val frame) /\ net = SendOk)
  /\ (forall e : pyexn,
         fst (send_peertalk_frame frame_type payload_data net) = Exc e ->
         e = KeyboardInterrupt /\ net = SendInterrupt)
  /\ (snd (send_peertalk_frame frame_type payload_data net) = []
      <-> exists e, build_frame frame_type payload_data = Exc e).
Proof.
  unfold send_peertalk_frame.
  destruct (build_frame frame_type payload_data) as [frame|e0] eqn:Hb.
  - split; [|split].
    + split.
      * destruct net; cbn; intros H; try discriminate. split; eauto.
      * intros [_ ->]. reflexivity.
    + intros e. destruct net; cbn; intros H; try discriminate.
      inversion H. auto.
    + split.
      * destruct net; discriminate.
      * intros [e H]. discriminate.
  - assert (Hx : is_Exception e0 = true).
    { destruct (build_frame_error _ _ _ Hb) as [-> | ->]; reflexivity. }
    rewrite Hx. cbn [fst snd]. split; [|split].
    + split; [discriminate|]. intros [[frame H] _]. discriminate.
    + intros e H. discriminate.
    + split; eauto.
Qed.

(** X2.  A frame type that does not fit 32 bits, or a payload longer than
    2^32 - 1 bytes, is refused: the function returns False and the socket
    is not touched. *)
Theorem send_peertalk_frame_refuses_out_of_range (frame_type : Z)
  (payload : list byte) (net : send_reply) :
  frame_type < 0 \/ UINT32_MAX < frame_type
    \/ UINT32_MAX < Z.of_nat (List.length payload) ->
  send_peertalk_frame frame_type (PyBytes payload) net = (Val false, []).
Proof.
  intros Hr. unfold send_peertalk_frame, build_frame, struct_pack_IIII.
  cbn [is_dict rbind py_len].
  change (struct_pack_I PTPROTOCOL_VERSION) with (Val (A := list byte) (be32 1)).
  change (struct_pack_I 0) with (Val (A := list byte) (be32 0)).
  cbn [rbind].
  unfold struct_pack_I at 1.
  destruct ((0 <=? frame_type) && (frame_type <=? UINT32_MAX)) eqn:Hft.
  - cbn [rbind]. unfold struct_pack_I.
    destruct ((0 <=? Z.of_nat (List.length payload))
              && (Z.of_nat (List.length payload) <=? UINT32_MAX)) eqn:Hn.
    + apply andb_true_iff in Hft. destruct Hft as [H0 H1].
      apply andb_true_iff in Hn. destruct Hn as [_ H2].
      apply Z.leb_le in H0. apply Z.leb_le in H1. apply Z.leb_le in H2. lia.
    + reflexivity.
  - reflexivity.
Qed.

(** X3.  A payload that is neither a dict nor bytes (a str, a list, a
    float) is never sent: building the frame raises [TypeError] at [len] or
    at the concatenation, or [struct.error] before it, and the function
    returns False. *)
Theorem send_peertalk_frame_refuses_other_objects (frame_type : Z)
  (net : send_reply) :
  (forall s : string, send_peertalk_frame frame_type (PyStr s) net = (Val false, []))
  /\ (forall l : list pyval,
         send_peertalk_frame frame_type (PyList l) net = (Val false, []))
  /\ (forall x : Q, send_peertalk_frame frame_type (PyFloat x) net = (Val false, [])).
Proof.
  assert (H : forall pd, is_dict pd = false -> (forall b, pd <> PyBytes b) ->
                         send_peertalk_frame frame_type pd net = (Val false, [])).
  { intros pd Hd Hb. unfold send_peertalk_frame.
    destruct (build_frame frame_type pd) as [frame|e] eqn:E.
    - apply build_frame_inv in E. destruct E as (payload & _ & _ & _ & Hp).
      rewrite Hd in Hp. elim (Hb payload Hp).
    - destruct (build_frame_error _ _ _ E) as [-> | ->]; reflexivity. }
  repeat split; intros; apply H; (reflexivity || discriminate).
Qed.

Lemma decode_header_app (version frame_type tag : Z) (payload rest : list byte) :
  decode_header (spec_encode version frame_type tag payload ++ rest)
  = decode_header (spec_encode version frame_type tag payload).
Proof. reflexivity. Qed.

Lemma parse_frame_spec_encode (frame_type : Z) (payload rest : list byte) :
  0 <= frame_type <= UINT32_MAX ->
  0 <= Z.of_nat (List.length payload) <= UINT32_MAX ->
  parse_frame (spec_encode 1 frame_type 0 payload ++ rest)
  = Some (1, frame_type, 0, payload, rest).
Proof.
  intros Hft Hn. unfold parse_frame.
  rewrite decode_header_app, decode_header_spec_encode
    by (unfold UINT32_MAX in *; lia).
  change (skipn 16 (spec_encode 1 frame_type 0 payload ++ rest)) with (payload ++ rest).
  rewrite length_app, Nat2Z.id.
  replace (Z.of_nat (List.length payload + List.length rest) <? Z.of_nat (List.length payload))
    with false by (symmetry; apply Z.ltb_ge; lia).
  rewrite firstn_app, Nat.sub_diag, firstn_all, skipn_app, Nat.sub_diag, skipn_all.
  cbn [firstn skipn app]. rewrite app_nil_r. reflexivity.
Qed.

(** X4.  A frame is self-delimiting.  Whatever follows it on the stream, a
    consumer that reads the 16-byte header and then payloadSize bytes gets
    back version 1, the frame type, tag 0 and the payload, and is left
    exactly at the first byte after the frame; the frame is 16 bytes longer
    than its payload. *)
Theorem parse_frame_after_build (frame_type : Z) (payload_data : pyval)
  (frame rest : list byte) :
  build_frame frame_type payload_data = Val frame ->
  exists payload : list byte,
    parse_frame (frame ++ rest) = Some (1, frame_type, 0, payload, rest)
    /\ List.length frame = (16 + List.length payload)%nat
    /\ (if is_dict payload_data
        then exists s, json_dumps payload_data = Val s /\ payload = encode_utf8 s
        else payload_data = PyBytes payload).
Proof.
  intros Hb. apply build_frame_inv in Hb.
  destruct Hb as (payload & -> & Hft & Hn & Hp).
  exists payload. split; [|split].
  - apply parse_frame_spec_encode; assumption.
  - reflexivity.
  - exact Hp.
Qed.

(** X5.  Frames written back to back can be told apart again: the
    concatenation of the frames built for a list of (frame type, payload)
    messages parses into exactly that list. *)
Theorem parse_stream_of_frames (messages : list (Z * list byte))
  (frames : list (list byte)) :
  Forall2 (fun m frame => build_frame (fst m) (PyBytes (snd m)) = Val frame)
    messages frames ->
  parse_stream (List.length frames) (List.concat frames) = Some messages.
Proof.
  induction 1 as [|[frame_type payload] frame messages frames Hb _ IH].
  - reflexivity.
  - cbn [fst snd] in Hb. apply build_frame_inv in Hb.
    destruct Hb as (payload' & -> & Hft & Hn & Hp).
    cbn [is_dict] in Hp. inversion Hp; subst payload'.
    cbn [List.concat List.length].
    pose proof (parse_frame_spec_encode frame_type payload (List.concat frames) Hft Hn) as Hparse.
    remember (spec_encode 1 frame_type 0 payload ++ List.concat frames) as stream eqn:Hs.
    assert (Hne : exists b bs, stream = b :: bs).
    { subst stream. unfold spec_encode, be32. cbn [app]. eauto. }
    destruct Hne as (b & bs & Hcons). rewrite Hcons. cbn [parse_stream].
    rewrite <- Hcons, Hparse, IH. reflexivity.
Qed.

(** ** The channel readers and the sweep, further *)

Lemma rnd_exact (z : Z) (x : Q) :
  Z.abs z <= 2 ^ 53 -> (x == inject_Z z)%Q -> (rnd x == inject_Z z)%Q.
Proof.
  intros Hz Hx. apply Qle_antisym.
  - apply (rnd_between z z x Hz Hz). rewrite Hx. split; apply Qle_refl.
  - apply (rnd_between z z x Hz Hz). rewrite Hx. split; apply Qle_refl.
Qed.

(** X6.  The conversion to Fahrenheit keeps the order of temperatures, and
    on a whole multiple of five degrees Celsius it is exact:
    5k degrees C reads 9k + 32 degrees F. *)
Theorem celsius_to_fahrenheit_monotone_exact :
  (forall c1 c2 : Q,
      (c1 <= c2)%Q -> (celsius_to_fahrenheit c1 <= celsius_to_fahrenheit c2)%Q)
  /\ (forall k : Z,
         Z.abs (45 * k) + 32 <= 2 ^ 53 ->
         (celsius_to_fahrenheit (inject_Z (5 * k)) == inject_Z (9 * k + 32))%Q).
Proof.
  unfold celsius_to_fahrenheit, fadd, fdiv, fmul. split.
  - intros c1 c2 H. apply rnd_monotone. apply Qplus_le_l.
    apply rnd_monotone. unfold Qdiv. apply Qmult_le_compat_r; [|discriminate].
    apply rnd_monotone. apply Qmult_le_compat_r; [exact H|discriminate].
  - intros k Hk.
    assert (H1 : (rnd (inject_Z (5 * k) * 9) == inject_Z (45 * k))%Q).
    { apply rnd_exact; [lia|].
      change 9%Q with (inject_Z 9). rewrite <- inject_Z_mult.
      replace (5 * k * 9) with (45 * k) by lia. reflexivity. }
    assert (H2 : (rnd (rnd (inject_Z (5 * k) * 9) / 5) == inject_Z (9 * k))%Q).
    { apply rnd_exact; [lia|]. rewrite H1.
      replace (45 * k) with (9 * k * 5) by lia. rewrite inject_Z_mult.
      change (inject_Z 5) with 5%Q. field. }
    apply rnd_exact; [lia|]. rewrite H2.
    change 32%Q with (inject_Z 32). rewrite <- inject_Z_plus. reflexivity.
Qed.


(** X8.  A probe's reading depends on the driver's answer to its own call
    only.  If two worlds differ in what the boards answer at one call, the
    two sweeps started in them agree on the timestamp and on every reading
    but the one taken at that call: a failing probe changes its own entry
    and nothing else. *)
Theorem faulty_probe_is_isolated (available egt_board cht_board : bool)
  (w1 w2 : world) (t : nat) :
  calls w1 = calls w2 ->
  random_unit w1 = random_unit w2 ->
  wall_clock w1 = wall_clock w2 ->
  (forall t' stack channel, t' <> t -> board w1 t' stack channel = board w2 t' stack channel) ->
  let self := SMTCReader_init available egt_board cht_board in
  exists (cht1 egt1 cht2 egt2 : list Q) (timestamp : Q),
    fst (read_temperature_data self w1) = Val (snapshot cht1 egt1 timestamp)
    /\ fst (read_temperature_data self w2) = Val (snapshot cht2 egt2 timestamp)
    /\ (forall i : nat, (i + tick w1)%nat <> t -> nth_error cht1 i = nth_error cht2 i)
    /\ (forall i : nat, (i + (6 + tick w1))%nat <> t -> nth_error egt1 i = nth_error egt2 i).
Proof.
  intros Hc Hr Hk Hb self. subst self.
  rewrite !read_temperature_data_init. cbn [fst].
  assert (Ht : tick w2 = tick w1) by (unfold tick; rewrite Hc; reflexivity).
  rewrite Ht, <- Hk.
  eexists _, _, _, _, _. split; [reflexivity|]. split; [reflexivity|].
  assert (Hp : forall sensor base span t' channel,
             t' <> t ->
             probe_reading sensor base span w1 t' channel
             = probe_reading sensor base span w2 t' channel).
  { intros sensor base span t' channel Hne. unfold probe_reading, measured, simulated.
    destruct sensor as [stack|].
    - rewrite (Hb t' stack channel Hne). reflexivity.
    - rewrite Hr. reflexivity. }
  unfold family_readings, sweep_channels. cbn [seq combine map fst snd].
  split; intros i Hi;
    do 6 (destruct i as [|i]; [cbn [nth_error]; f_equal; apply Hp; exact Hi|]);
    destruct i; reflexivity.
Qed.

(** ** [SMTCReader.__init__], with the driver *)

(** What the sm_tc driver does during start-up: whether [sm_tc.SMtc(stack)]
    constructs, and whether [set_sensor_type(channel, ...)] on the board at
    [stack] returns or raises. *)
Record driver : Type := mkDriver {
  constructs : Z -> bool;
  accepts_type : Z -> Z -> bool
}.

Inductive init_event : Type :=
| Construct (stack : Z) (ok : bool)
| SetSensorType (stack channel sensor_type : Z) (ok : bool)
| LogChannelFailed (channel : Z).

(** One call of [set_sensor_type] inside the [try]: the event, and the
    exception if the driver raises. *)
Definition set_sensor_type (d : driver) (stack channel sensor_type : Z)
  : result unit * list init_event :=
  let ok := accepts_type d stack channel in
  (if ok then Val tt else Exc SensorError,
   [SetSensorType stack channel sensor_type ok]).

(** The body of the loop over [range(1, 9)]: the EGT board first, then the
    CHT board; an exception from either ends the [try] and is printed. *)
Definition configure_channel (self : SMTCReader) (d : driver) (channel : Z)
  : list init_event :=
  let (r1, ev1) :=
    match egt_sensor self with
    | Some stack => set_sensor_type d stack channel (thermocouple_type self)
    | None => (Val tt, [])
    end in
  match r1 with
  | Exc _ => ev1 ++ [LogChannelFailed channel]
  | Val _ =>
      let (r2, ev2) :=
        match cht_sensor self with
        | Some stack => set_sensor_type d stack channel (thermocouple_type self)
        | None => (Val tt, [])
        end in
      match r2 with
      | Exc _ => ev1 ++ ev2 ++ [LogChannelFailed channel]
      | Val _ => ev1 ++ ev2
      end
  end.

(** [SMTCReader()]: the reader, and what was asked of the driver. *)
Definition SMTCReader_construct (SMTC_AVAILABLE : bool) (d : driver)
  : SMTCReader * list init_event :=
  if negb SMTC_AVAILABLE then (SMTCReader_init false false false, [])
  else
    let self := SMTCReader_init true (constructs d 0) (constructs d 1) in
    (self,
     [Construct 0 (constructs d 0); Construct 1 (constructs d 1)]
       ++ (if hardware_available self
           then flat_map (configure_channel self d) (map Z.of_nat (seq 1 8))
           else [])).

Lemma in_channels_1_8 (channel : Z) :
  In channel (map Z.of_nat (seq 1 8)) <-> 1 <= channel <= 8.
Proof.
  cbn. split.
  - intros H. repeat (destruct H as [H|H]; [lia|]). elim H.
  - intros H.
    assert (channel = 1 \/ channel = 2 \/ channel = 3 \/ channel = 4
            \/ channel = 5 \/ channel = 6 \/ channel = 7 \/ channel = 8) by lia.
    intuition.
Qed.

Lemma configure_channel_events (self : SMTCReader) (d : driver) (channel : Z)
  (stack ch ty : Z) (ok : bool) :
  In (SetSensorType stack ch ty ok) (configure_channel self d channel) <->
  ch = channel /\ ty = thermocouple_type self /\ ok = accepts_type d stack channel
  /\ (egt_sensor self = Some stack
      \/ (cht_sensor self = Some stack
          /\ match egt_sensor self with
             | Some egt => accepts_type d egt channel = true
             | None => True
             end)).
Proof.
  unfold configure_channel, set_sensor_type.
  destruct (egt_sensor self) as [egt|]; destruct (cht_sensor self) as [cht|];
    cbn [fst snd app];
    repeat match goal with
           | |- context [accepts_type d ?s ?c] =>
               let E := fresh "E" in
               destruct (accepts_type d s c) eqn:E; cbn [app In]
           end;
    split;
    try (intros H;
         repeat (destruct H as [H|H];
                 [ first [ discriminate H
                         | inversion H; subst; intuition congruence ] | ]);
         solve [elim H]);
    intros (-> & -> & -> & [H|[H H']]);
    try (inversion H; subst); try discriminate;
    try rewrite E; try rewrite E0;
    try congruence; intuition congruence.
Qed.

(** X9.  Start-up configuration.  Without the driver, or with no board
    found, the reader is in simulation mode and no channel is configured.
    Otherwise every [set_sensor_type] call is for a channel from 1 to 8,
    with sensor type 3 (K), on a board that was found; the EGT board (stack
    level 0) is asked for each of the eight channels whatever failed before;
    and the CHT board (stack level 1) is asked for a channel exactly when
    the EGT board is absent or accepted that channel: a failure of the EGT
    board on a channel leaves the CHT board's channel unconfigured. *)
Theorem SMTCReader_construct_configures (SMTC_AVAILABLE : bool) (d : driver) :
  let self := fst (SMTCReader_construct SMTC_AVAILABLE d) in
  let events := snd (SMTCReader_construct SMTC_AVAILABLE d) in
  (hardware_available self = false ->
   egt_sensor self = None /\ cht_sensor self = None
   /\ forall stack channel ty ok, ~ In (SetSensorType stack channel ty ok) events)
  /\ (forall stack channel ty ok,
         In (SetSensorType stack channel ty ok) events ->
         1 <= channel <= 8 /\ ty = 3 /\ ok = accepts_type d stack channel
         /\ ((stack = 0 /\ egt_sensor self = Some 0)
             \/ (stack = 1 /\ cht_sensor self = Some 1)))
  /\ (egt_sensor self = Some 0 ->
      forall channel, 1 <= channel <= 8 ->
        In (SetSensorType 0 channel 3 (accepts_type d 0 channel)) events)
  /\ (cht_sensor self = Some 1 ->
      forall channel, 1 <= channel <= 8 ->
        (In (SetSensorType 1 channel 3 (accepts_type d 1 channel)) events
         <-> egt_sensor self = None \/ accepts_type d 0 channel = true)).
Proof.
  unfold SMTCReader_construct.
  destruct SMTC_AVAILABLE; cbn [negb fst snd].
  2:{ repeat split; try discriminate; intros; try (intros []); auto.
      all: match goal with H : In _ [] |- _ => elim H end. }
  set (self := SMTCReader_init true (constructs d 0) (constructs d 1)).
  assert (Hty : thermocouple_type self = 3) by reflexivity.
  assert (Hin : forall stack channel ty ok,
             In (SetSensorType stack channel ty ok)
               ([Construct 0 (constructs d 0); Construct 1 (constructs d 1)]
                  ++ (if hardware_available self
                      then flat_map (configure_channel self d) (map Z.of_nat (seq 1 8))
                      else []))
             <-> hardware_available self = true /\ 1 <= channel <= 8
                 /\ In (SetSensorType stack channel ty ok) (configure_channel self d channel)).
  { intros stack channel ty ok. cbn [app In]. split.
    - intros [H|[H|H]]; try discriminate.
      destruct (hardware_available self); [|elim H].
      apply in_flat_map in H. destruct H as (c & Hc & H).
      pose proof H as H'. apply configure_channel_events in H'.
      destruct H' as (-> & _). apply in_channels_1_8 in Hc. auto.
    - intros (Hh & Hc & H). rewrite Hh. right. right.
      apply in_flat_map. exists channel. split; [apply in_channels_1_8; exact Hc|exact H]. }
  assert (Hsens : (egt_sensor self = Some 0 \/ egt_sensor self = None)
                  /\ (cht_sensor self = Some 1 \/ cht_sensor self = None)
                  /\ hardware_available self
                     = is_not_None (egt_sensor self) || is_not_None (cht_sensor self)).
  { subst self. cbn. destruct (constructs d 0), (constructs d 1); cbn; auto. }
  destruct Hsens as (He & Hc & Hh).
  split; [|split; [|split]].
  - intros Hoff. rewrite Hoff in Hh.
    destruct He as [He|He], Hc as [Hc|Hc]; rewrite He, Hc in Hh; try discriminate.
    split; [exact He|]. split; [exact Hc|].
    intros stack channel ty ok H. apply Hin in H. destruct H as (H & _). congruence.
  - intros stack channel ty ok H. apply Hin in H. destruct H as (_ & Hch & H).
    apply configure_channel_events in H. destruct H as (_ & -> & -> & Hs).
    split; [exact Hch|]. split; [exact Hty|]. split; [reflexivity|].
    destruct Hs as [Hs|[Hs _]].
    + left. destruct He as [He|He]; rewrite He in Hs; inversion Hs; auto.
    + right. destruct Hc as [Hc|Hc]; rewrite Hc in Hs; inversion Hs; auto.
  - intros Hegt channel Hch. apply Hin. split.
    + rewrite Hh, Hegt. reflexivity.
    + split; [exact Hch|]. apply configure_channel_events. rewrite Hty. auto.
  - intros Hcht channel Hch. split.
    + intros H. apply Hin in H. destruct H as (_ & _ & H).
      apply configure_channel_events in H. destruct H as (_ & _ & _ & [Hs|[_ Hs]]).
      * rewrite Hs in He. destruct He as [He|He]; discriminate.
      * destruct He as [He|He]; rewrite He in Hs; auto.
    + intros Hs. apply Hin. split.
      * rewrite Hh, Hcht. apply orb_true_r.
      * split; [exact Hch|]. apply configure_channel_events. rewrite Hty.
        repeat split. right. split; [exact Hcht|].
        destruct Hs as [Hs|Hs]; [rewrite Hs; exact I|].
        destruct He as [He|He]; rewrite He; [exact Hs|exact I].
Qed.

(** ** [main] as a transition system *)

(** The moves of [main] from one blocking call to the next: the call it is
    at, the reply, what it does and prints, and the call it is at then. *)
Inductive transition : pc -> reply -> list action -> pc -> Prop :=
| T_connected (d : pyval) :
    transition AtConnect (RConnect Connected)
      [Connect Connected; LogStreaming] (AtSend 1 d)
| T_connected_unbuilt :
    transition AtConnect (RConnect Connected)
      [Connect Connected; LogStreaming; LogFailed 1] (AtClose 1)
| T_connect_failed (k : connect_reply) :
    is_failure k = true ->
    transition AtConnect (RConnect k) [Connect k; LogRetrying] AtRetrySleep
| T_connect_interrupt :
    transition AtConnect (RConnect ConnectInterrupt)
      [Connect ConnectInterrupt; LogShutdown] (Exited 0)
| T_retry_slept :
    transition AtRetrySleep (RSleep Slept) [Sleep 5 Slept] AtConnect
| T_retry_interrupt :
    transition AtRetrySleep (RSleep SleepInterrupt)
      [Sleep 5 SleepInterrupt; LogShutdown] (Exited 0)
| T_sent (n : nat) (d : pyval) (f : list byte) (live : bool) (a b : Q) :
    transition (AtSend n d) (RSend SendOk)
      [SendAll f SendOk; LogFrame n live a b] (AtFrameSleep n)
| T_send_failed (n : nat) (d : pyval) (f : list byte) :
    transition (AtSend n d) (RSend SendError)
      [SendAll f SendError; LogFailed n] (AtClose n)
| T_send_interrupt (n : nat) (d : pyval) (f : list byte) :
    transition (AtSend n d) (RSend SendInterrupt)
      [SendAll f SendInterrupt; LogStopping] (AtClose n)
| T_slept (n : nat) (d : pyval) :
    transition (AtFrameSleep n) (RSleep Slept) [Sleep 1 Slept] (AtSend (S n) d)
| T_slept_unbuilt (n : nat) :
    transition (AtFrameSleep n) (RSleep Slept)
      [Sleep 1 Slept; LogFailed (S n)] (AtClose (S n))
| T_sleep_interrupt (n : nat) :
    transition (AtFrameSleep n) (RSleep SleepInterrupt)
      [Sleep 1 SleepInterrupt; LogStopping] (AtClose n)
| T_closed (n : nat) :
    transition (AtClose n) (RClose Closed)
      [SockClose Closed; LogDisconnected n] AtConnect
| T_close_failed (n : nat) :
    transition (AtClose n) (RClose CloseError)
      [SockClose CloseError; LogFatal] AtFatalSleep
| T_close_interrupt (n : nat) :
    transition (AtClose n) (RClose CloseInterrupt)
      [SockClose CloseInterrupt; LogShutdown] (Exited 0)
| T_fatal_slept :
    transition AtFatalSleep (RSleep Slept) [Sleep 5 Slept] AtConnect
| T_fatal_interrupt :
    transition AtFatalSleep (RSleep SleepInterrupt)
      [Sleep 5 SleepInterrupt] (Uncaught KeyboardInterrupt).

(** A pending write carries a snapshot from which a frame can be built. *)
Definition ready (p : process) : Prop :=
  match at_pc p with
  | AtSend _ data =>
      snapshot_shaped data
      /\ exists frame, build_frame FRAME_TYPE_TEMPERATURE data = Val frame
  | _ => True
  end.

Lemma iteration_transition (sensor_reader : SMTCReader) (n : nat) (p : process) :
  (exists d, at_pc (iteration sensor_reader n p) = AtSend (S n) d
             /\ out (iteration sensor_reader n p) = out p
             /\ ready (iteration sensor_reader n p))
  \/ (at_pc (iteration sensor_reader n p) = AtClose (S n)
      /\ out (iteration sensor_reader n p) = out p ++ [LogFailed (S n)]).
Proof.
  unfold iteration.
  destruct (read_temperature_data_total sensor_reader (env p))
    as (cht & egt & ts & w' & Hr & Hc & He).
  rewrite Hr. change (py_truthy (snapshot cht egt ts)) with true. cbv iota.
  unfold send_peertalk_frame.
  destruct (build_frame FRAME_TYPE_TEMPERATURE (snapshot cht egt ts)) as [frame|e] eqn:Hb.
  - left. exists (snapshot cht egt ts). unfold ready. unfold_moves.
    split; [reflexivity|]. split; [reflexivity|].
    split; [exists cht, egt, ts; auto|eauto].
  - right. destruct (build_frame_error _ _ _ Hb) as [-> | ->];
      cbn [is_Exception fst after_send]; unfold_moves; auto.
Qed.

(** [step] makes the moves of [transition], and only those. *)
Lemma step_transition (sensor_reader : SMTCReader) (p p' : process) (r : reply) :
  ready p ->
  step sensor_reader p r = Some p' ->
  ready p'
  /\ exists acts, out p' = out p ++ acts /\ transition (at_pc p) r acts (at_pc p').
Proof.
  destruct p as [l c w o]. unfold ready at 1. cbn [at_pc]. intros Hl.
  unfold step. cbn [at_pc].
  destruct l, r; try discriminate.
  - (* connect_to_ipad *)
    destruct r; cbn [connect_to_ipad]; intros H; inversion H; subst p'; clear H;
      try (unfold ready; unfold_moves; split; [exact I|];
           eexists; split; [rewrite <- ?app_assoc; reflexivity|];
           constructor; reflexivity).
    match goal with
    | |- context [iteration sensor_reader 0 ?q] =>
        destruct (iteration_transition sensor_reader 0 q)
          as [(d & Hpc & Hout & Hrd)|(Hpc & Hout)]
    end.
    + split; [exact Hrd|]. eexists. split.
      * rewrite Hout. unfold_moves. rewrite <- ?app_assoc. reflexivity.
      * rewrite Hpc. constructor.
    + split; [unfold ready; rewrite Hpc; exact I|].
      eexists. split.
      * rewrite Hout. unfold_moves. rewrite <- ?app_assoc. reflexivity.
      * rewrite Hpc. constructor.
  - (* time.sleep(5) after a failed connect *)
    destruct r; cbn [time_sleep]; intros H; inversion H; subst p'; clear H;
      unfold ready; unfold_moves; (split; [exact I|]);
      eexists; (split; [rewrite <- ?app_assoc; reflexivity|]); constructor.
  - (* sock.sendall *)
    destruct Hl as ((cht & egt & ts & -> & Hc & He) & (frame & Hb)).
    unfold send_peertalk_frame. rewrite Hb.
    destruct r; cbn [map]; intros H; inversion H; subst p'; clear H.
    + destruct (after_send_confirmed sensor_reader frame_num cht egt ts
                  (emit [SendAll frame SendOk]
                     (mkProcess (AtSend frame_num (snapshot cht egt ts)) c w o)))
        as (ca & ea & Hconf).
      unfold after_send in Hconf. rewrite Hconf.
      unfold ready; unfold_moves. split; [exact I|].
      eexists. split; [rewrite <- ?app_assoc; reflexivity|]. constructor.
    + unfold after_send, ready; unfold_moves. split; [exact I|].
      eexists. split; [rewrite <- ?app_assoc; reflexivity|]. constructor.
    + unfold after_send, ready; unfold_moves. split; [exact I|].
      eexists. split; [rewrite <- ?app_assoc; reflexivity|]. constructor.
  - (* time.sleep(1) *)
    destruct r; cbn [time_sleep]; intros H; inversion H; subst p'; clear H.
    + match goal with
      | |- context [iteration sensor_reader frame_num ?q] =>
          destruct (iteration_transition sensor_reader frame_num q)
            as [(d & Hpc & Hout & Hrd)|(Hpc & Hout)]
      end.
      * split; [exact Hrd|]. eexists. split.
        -- rewrite Hout. unfold_moves. reflexivity.
        -- rewrite Hpc. constructor.
      * split; [unfold ready; rewrite Hpc; exact I|].
        eexists. split.
        -- rewrite Hout. unfold_moves. rewrite <- ?app_assoc. reflexivity.
        -- rewrite Hpc. constructor.
    + unfold ready; unfold_moves. split; [exact I|].
      eexists. split; [rewrite <- ?app_assoc; reflexivity|]. constructor.
  - (* sock.close() *)
    destruct r; cbn [sock_close]; intros H; inversion H; subst p'; clear H;
      unfold ready; unfold_moves; (split; [exact I|]);
      eexists; (split; [rewrite <- ?app_assoc; reflexivity|]); constructor.
  - (* time.sleep(5) after a fatal error *)
    destruct r; cbn [time_sleep]; intros H; inversion H; subst p'; clear H;
      unfold ready; unfold_moves; (split; [exact I|]);
      eexists; (split; [rewrite <- ?app_assoc; reflexivity|]); constructor.
Qed.

Lemma run_snoc (sensor_reader : SMTCReader) (rs : list reply) (r : reply)
  (p p' : process) :
  run sensor_reader p (rs ++ [r]) = Some p' ->
  exists p1, run sensor_reader p rs = Some p1 /\ step sensor_reader p1 r = Some p'.
Proof.
  rewrite run_app. destruct (run sensor_reader p rs) as [p1|]; [|discriminate].
  cbn [run]. destruct (step sensor_reader p1 r) as [p2|] eqn:Hs; [|discriminate].
  intros H. inversion H; subst. eauto.
Qed.

(** A property of the replies read, the call [main] is at and its trace
    holds after every run if it holds at the start and every move keeps
    it. *)
Lemma run_induction (sensor_reader : SMTCReader) (w : world)
  (Inv : list reply -> pc -> list action -> Prop) :
  Inv [] AtConnect [] ->
  (forall rs l o r acts l',
      Inv rs l o -> transition l r acts l' -> Inv (rs ++ [r]) l' (o ++ acts)) ->
  forall rs p, run sensor_reader (main w) rs = Some p -> Inv rs (at_pc p) (out p).
Proof.
  intros Hinit Hstep rs.
  assert (H : forall p, run sensor_reader (main w) rs = Some p ->
                        ready p /\ Inv rs (at_pc p) (out p)).
  { induction rs as [|r rs IH] using rev_ind; intros p Hrun.
    - cbn in Hrun. inversion Hrun; subst. split; [exact I|exact Hinit].
    - apply run_snoc in Hrun. destruct Hrun as (p1 & Hrun & Hs).
      destruct (IH p1 Hrun) as [Hr HI].
      destruct (step_transition _ _ _ _ Hr Hs) as (Hr' & acts & Hout & Ht).
      split; [exact Hr'|]. rewrite Hout. exact (Hstep _ _ _ _ _ _ HI Ht). }
  intros p Hrun. apply H. exact Hrun.
Qed.

(** ** What every run of [main] keeps *)

(** The connection as the trace shows it: [link open acts] follows the
    trace from a state with the connection open or not, and is [None] as
    soon as a call is made in the wrong state: a connect or a five-second
    pause while a connection is open, a write, a one-second pause or a close
    while none is. *)
Fixpoint link (open : bool) (acts : list action) : option bool :=
  match acts with
  | [] => Some open
  | Connect Connected :: rest => if open then None else link true rest
  | Connect _ :: rest => if open then None else link false rest
  | SendAll _ _ :: rest => if open then link true rest else None
  | SockClose _ :: rest => if open then link false rest else None
  | Sleep secs _ :: rest =>
      if Bool.eqb open (secs =? 1) then link open rest else None
  | _ :: rest => link open rest
  end.

Definition is_streaming (l : pc) : bool :=
  match l with
  | AtSend _ _ | AtFrameSleep _ | AtClose _ => true
  | _ => false
  end.

(** The frame counter as the trace shows it: [numbering k acts] follows the
    printed frame numbers from a state with [k] frames confirmed on the
    current connection, and is [None] as soon as a line shows a number that
    does not fit. *)
Fixpoint numbering (k : nat) (acts : list action) : option nat :=
  match acts with
  | [] => Some k
  | LogStreaming :: rest => numbering 0 rest
  | LogFrame n _ _ _ :: rest => if Nat.eqb n (S k) then numbering (S k) rest else None
  | LogFailed n :: rest => if Nat.eqb n (S k) then numbering k rest else None
  | LogDisconnected n :: rest =>
      if Nat.eqb n k || Nat.eqb n (S k) then numbering k rest else None
  | _ :: rest => numbering k rest
  end.

(** The writes the socket accepted. *)
Fixpoint writes_accepted (acts : list action) : nat :=
  match acts with
  | [] => 0
  | SendAll _ SendOk :: rest => S (writes_accepted rest)
  | _ :: rest => writes_accepted rest
  end.

Lemma link_app (open : bool) (a b : list action) :
  link open (a ++ b)
  = match link open a with
    | Some open' => link open' b
    | None => None
    end.
Proof.
  revert open. induction a as [|x a IH]; intros open; [reflexivity|].
  destruct x as [k| | | | | | | | | | | |]; cbn [app link]; try apply IH.
  - destruct k, open; try reflexivity; apply IH.
  - destruct open; [apply IH|reflexivity].
  - destruct (Bool.eqb open (secs =? 1)); [apply IH|reflexivity].
  - destruct open; [apply IH|reflexivity].
Qed.

Lemma numbering_app (k : nat) (a b : list action) :
  numbering k (a ++ b)
  = match numbering k a with
    | Some k' => numbering k' b
    | None => None
    end.
Proof.
  revert k. induction a as [|x a IH]; intros k; [reflexivity|].
  destruct x; cbn [app numbering]; try apply IH.
  - destruct (Nat.eqb frame_num (S k)); [apply IH|reflexivity].
  - destruct (Nat.eqb frame_num (S k)); [apply IH|reflexivity].
  - destruct (Nat.eqb frame_num k || Nat.eqb frame_num (S k)); [apply IH|reflexivity].
Qed.

Lemma writes_accepted_app (a b : list action) :
  writes_accepted (a ++ b) = (writes_accepted a + writes_accepted b)%nat.
Proof.
  induction a as [|x a IH]; [reflexivity|].
  destruct x as [| f r | | | | | | | | | | |]; cbn [app writes_accepted]; try apply IH.
  destruct r; cbn; rewrite IH; reflexivity.
Qed.

(** X10.  [main] stops only on an interrupt.  After any run: if it has
    exited, the exit code is 0 and an interrupt was delivered; if an
    exception has escaped it, the exception is [KeyboardInterrupt], and
    before it [sock.close()] had raised; and as long as no interrupt is
    delivered, [main] is at a blocking call and there is a reply under which
    it goes on. *)
Theorem main_stops_only_on_interrupt (sensor_reader : SMTCReader) (w : world)
  (rs : list reply) (p : process) :
  run sensor_reader (main w) rs = Some p ->
  (forall code : Z, at_pc p = Exited code ->
                    code = 0 /\ existsb is_interrupt rs = true)
  /\ (forall e : pyexn, at_pc p = Uncaught e ->
                        e = KeyboardInterrupt /\ In (RClose CloseError) rs
                        /\ existsb is_interrupt rs = true)
  /\ (existsb is_interrupt rs = false ->
      exists r : reply, is_interrupt r = false /\ step sensor_reader p r <> None).
Proof.
  intros Hrun.
  pose proof (run_induction sensor_reader w
    (fun rs l _ =>
       (forall code, l = Exited code -> code = 0 /\ existsb is_interrupt rs = true)
       /\ (forall e, l = Uncaught e ->
                     e = KeyboardInterrupt /\ In (RClose CloseError) rs
                     /\ existsb is_interrupt rs = true)
       /\ (l = AtFatalSleep -> In (RClose CloseError) rs)
       /\ (existsb is_interrupt rs = false ->
           (forall code, l <> Exited code) /\ (forall e, l <> Uncaught e)))) as Hind.
  cbv beta in Hind.
  assert (H : (forall code, at_pc p = Exited code ->
                            code = 0 /\ existsb is_interrupt rs = true)
              /\ (forall e, at_pc p = Uncaught e ->
                            e = KeyboardInterrupt /\ In (RClose CloseError) rs
                            /\ existsb is_interrupt rs = true)
              /\ (at_pc p = AtFatalSleep -> In (RClose CloseError) rs)
              /\ (existsb is_interrupt rs = false ->
                  (forall code, at_pc p <> Exited code)
                  /\ (forall e, at_pc p <> Uncaught e))).
  { apply Hind; [| |exact Hrun].
    - repeat split; try discriminate.
    - clear. intros rs l o r acts l' (H1 & H2 & H3 & H4) Ht.
      inversion Ht; subst; rewrite ?existsb_app; cbn [existsb is_interrupt];
        rewrite ?orb_false_r, ?orb_true_r;
        (split; [|split; [|split]]);
        try (intros ? Heq; discriminate Heq);
        try (intros Heq; discriminate Heq);
        try (intros ? Heq; inversion Heq; subst; auto);
        try (intros Hno; apply H4 in Hno; split; intros ? Heq; discriminate Heq);
        try (intros _; apply in_or_app; right; left; reflexivity).
      + match goal with k : connect_reply |- _ => destruct k; try discriminate end;
          cbn; rewrite orb_false_r; intros Hno; split; intros ? Heq; discriminate Heq.
      + repeat split; try reflexivity.
        apply in_or_app. left. apply H3. reflexivity. }
  destruct H as (H1 & H2 & _ & H4).
  split; [exact H1|]. split; [exact H2|].
  intros Hno. destruct (H4 Hno) as [Hne Hnu].
  destruct p as [l c w0 o]. cbn [at_pc] in *. unfold step. cbn [at_pc].
  destruct l.
  - exists (RConnect ConnectTimeout). split; [reflexivity|discriminate].
  - exists (RSleep Slept). split; [reflexivity|discriminate].
  - exists (RSend SendError). split; [reflexivity|].
    destruct (send_peertalk_frame _ _ _). discriminate.
  - exists (RSleep Slept). split; [reflexivity|discriminate].
  - exists (RClose Closed). split; [reflexivity|discriminate].
  - exists (RSleep Slept). split; [reflexivity|discriminate].
  - elim (Hne code). reflexivity.
  - elim (Hnu e). reflexivity.
Qed.

(** X11.  One connection at a time, used only while open.  In the trace of
    any run, [connect_to_ipad()] and the five-second pauses happen only
    while no connection is open, and [sock.sendall], the one-second pauses
    and [sock.close()] only while one is; a connection is open at the end of
    the run exactly when [main] is in the streaming loop or about to close
    the socket. *)
Theorem one_connection_at_a_time (sensor_reader : SMTCReader) (w : world)
  (rs : list reply) (p : process) :
  run sensor_reader (main w) rs = Some p ->
  link false (out p) = Some (is_streaming (at_pc p)).
Proof.
  apply (run_induction sensor_reader w
           (fun _ l o => link false o = Some (is_streaming l))).
  - reflexivity.
  - intros rs' l o r acts l' H Ht. rewrite link_app, H.
    inversion Ht; subst; try reflexivity.
    match goal with k : connect_reply |- _ => destruct k; try discriminate end;
      reflexivity.
Qed.

(** X12.  Frame numbers.  In the trace of any run the confirmation lines of
    one connection are numbered 1, 2, 3, ... and start again at 1 after each
    connect; a failure line shows the number of the frame that was not
    confirmed; and the count in the disconnect line is the number of frames
    confirmed on that connection or one more.  At the end of the run the
    counter of [main] is the number of frames confirmed on the current
    connection, plus one while a write is pending, and that or one more
    when the socket is about to be closed. *)
Theorem frame_numbers_count_confirmations (sensor_reader : SMTCReader) (w : world)
  (rs : list reply) (p : process) :
  run sensor_reader (main w) rs = Some p ->
  exists k : nat,
    numbering 0 (out p) = Some k
    /\ match at_pc p with
       | AtSend n _ => n = S k
       | AtFrameSleep n => n = k
       | AtClose n => n = k \/ n = S k
       | _ => True
       end.
Proof.
  apply (run_induction sensor_reader w
           (fun _ l o =>
              exists k, numbering 0 o = Some k
                        /\ match l with
                           | AtSend n _ => n = S k
                           | AtFrameSleep n => n = k
                           | AtClose n => n = k \/ n = S k
                           | _ => True
                           end)).
  - exists 0%nat. split; [reflexivity|exact I].
  - intros rs' l o r acts l' (k & Hk & Hl) Ht. rewrite numbering_app, Hk.
    inversion Ht; subst; cbn [numbering];
      try (destruct Hl as [Hl|Hl]); try subst;
      rewrite ?Nat.eqb_refl, ?orb_true_r; cbn [orb];
      eexists; (split; [reflexivity|]); auto.
Qed.

(** X13.  A frame is confirmed exactly when the socket took it: in the
    trace of any run there are as many confirmation lines as accepted
    writes, and every write is one of the frames counted as sent. *)
Theorem confirmations_match_accepted_writes (sensor_reader : SMTCReader) (w : world)
  (rs : list reply) (p : process) :
  run sensor_reader (main w) rs = Some p ->
  List.length (frames_confirmed (out p)) = writes_accepted (out p)
  /\ (writes_accepted (out p) <= List.length (frames_sent (out p)))%nat.
Proof.
  apply (run_induction sensor_reader w
           (fun _ _ o =>
              List.length (frames_confirmed o) = writes_accepted o
              /\ (writes_accepted o <= List.length (frames_sent o))%nat)).
  - split; [reflexivity|]. cbn. lia.
  - intros rs' l o r acts l' [H1 H2] Ht.
    rewrite frames_confirmed_app, frames_sent_app, writes_accepted_app, !length_app.
    inversion Ht; subst; cbn; lia.
Qed.

(** X14.  When [sock.close()] raises, the error is caught by the outer
    handler, which pauses five seconds outside of any [try]: if the pause
    ends, [main] is back at [connect_to_ipad()]; if the interrupt arrives
    during that pause, [KeyboardInterrupt] escapes [main] and there is no
    exit with code 0. *)
Theorem close_error_then_interrupt_escapes (sensor_reader : SMTCReader)
  (frame_num : nat) (c : option socket) (w : world) (o : list action) :
  run sensor_reader (mkProcess (AtClose frame_num) c w o)
    [RClose CloseError; RSleep Slept]
  = Some (mkProcess AtConnect c w
            (o ++ [SockClose CloseError; LogFatal; Sleep 5 Slept]))
  /\ run sensor_reader (mkProcess (AtClose frame_num) c w o)
       [RClose CloseError; RSleep SleepInterrupt]
     = Some (mkProcess (Uncaught KeyboardInterrupt) c w
               (o ++ [SockClose CloseError; LogFatal; Sleep 5 SleepInterrupt])).
Proof.
  split; cbn [run]; unfold step at 1; cbn [at_pc sock_close]; unfold_moves;
    unfold step; cbn [at_pc time_sleep]; unfold_moves;
    rewrite <- !app_assoc; reflexivity.
Qed.

(** Rounds of a write that is accepted and the pause after it. *)
Definition streaming_script (k : nat) : list reply :=
  flat_map (fun _ => [RSend SendOk; RSleep Slept]) (seq 0 k).

Lemma streaming_rounds (sensor_reader : SMTCReader) (k : nat) :
  forall (n : nat) (d : pyval) (c : option socket) (w : world) (o : list action),
    ready (mkProcess (AtSend (S n) d) c w o) ->
    exists (d' : pyval) (w' : world) (acts : list action),
      run sensor_reader (mkProcess (AtSend (S n) d) c w o) (streaming_script k)
      = Some (mkProcess (AtSend (S (n + k)) d') c w' (o ++ acts))
      /\ ready (mkProcess (AtSend (S (n + k)) d') c w' (o ++ acts))
      /\ frames_confirmed acts = seq (S n) k
      /\ List.length (frames_sent acts) = k
      /\ writes_accepted acts = k.
Proof.
  induction k as [|k IH]; intros n d c w o Hr.
  - exists d, w, []. rewrite Nat.add_0_r, app_nil_r. cbn [streaming_script seq flat_map run].
    split; [reflexivity|]. split; [exact Hr|]. repeat split.
  - destruct (IH n d c w o Hr) as (d1 & w1 & acts1 & Hrun & Hr1 & Hc1 & Hs1 & Ha1).
    assert (Hscript : streaming_script (S k)
                      = streaming_script k ++ [RSend SendOk; RSleep Slept]).
    { unfold streaming_script. rewrite seq_S, flat_map_app. reflexivity. }
    rewrite Hscript, run_app, Hrun.
    destruct Hr1 as ((cht & egt & ts & -> & Hlc & Hle) & (frame & Hb)).
    cbn [run].
    destruct (step_send_ok sensor_reader (S (n + k)) cht egt ts frame c w1 (o ++ acts1) Hb)
      as (ca & ea & ->).
    unfold step at 1. cbn [at_pc time_sleep].
    match goal with
    | |- context [iteration sensor_reader (S (n + k)) ?q] =>
        destruct (iteration_sends sensor_reader (S (n + k)) q)
          as (cht2 & egt2 & ts2 & w2 & frame2 & Hlc2 & Hle2 & Hb2 & ->)
    end.
    unfold_moves.
    exists (snapshot cht2 egt2 ts2), w2,
      (acts1 ++ [SendAll frame SendOk;
                 LogFrame (S (n + k)) (hardware_available sensor_reader) ca ea;
                 Sleep 1 Slept]).
    replace (n + S k)%nat with (S (n + k)) by lia.
    split; [rewrite <- !app_assoc; reflexivity|].
    split.
    { split; [exists cht2, egt2, ts2; auto|eauto]. }
    rewrite frames_confirmed_app, frames_sent_app, writes_accepted_app, length_app,
      Hc1, Hs1, Ha1.
    rewrite (seq_S k (S n)).
    cbn [frames_confirmed frames_sent writes_accepted List.length].
    repeat split; try lia.
Qed.

(** The retry lines of a trace. *)
Fixpoint retries (acts : list action) : nat :=
  match acts with
  | [] => 0
  | LogRetrying :: rest => S (retries rest)
  | _ :: rest => retries rest
  end.

Lemma retries_retry_trace (ks : list connect_reply) :
  retries (retry_trace ks) = List.length ks.
Proof.
  induction ks as [|k ks IH]; [reflexivity|].
  cbn [retry_trace flat_map app retries List.length].
  fold (retry_trace ks). rewrite IH. reflexivity.
Qed.

Lemma retries_app (a b : list action) :
  retries (a ++ b) = (retries a + retries b)%nat.
Proof.
  induction a as [|x a IH]; [reflexivity|].
  destruct x; cbn [app retries]; rewrite IH; reflexivity.
Qed.

(** X15.  The connect that succeeds at the N-th attempt.  After N - 1
    failed attempts, each followed by its line and its five-second pause,
    and one attempt that succeeds, the trace holds exactly these N - 1 retry
    lines and then the start of streaming; the connection is open on port
    2345, nothing has been written yet, and the frame about to be written
    is number 1. *)
Theorem connect_succeeds_after_failures (sensor_reader : SMTCReader) (w : world)
  (ks : list connect_reply) :
  forallb is_failure ks = true ->
  exists (p : process) (d : pyval),
    run sensor_reader (main w) (retry_script ks ++ [RConnect Connected]) = Some p
    /\ at_pc p = AtSend 1 d
    /\ snapshot_shaped d
    /\ conn p = Some (Socket 2345)
    /\ out p = retry_trace ks ++ [Connect Connected; LogStreaming]
    /\ retries (out p) = List.length ks
    /\ frames_sent (out p) = [].
Proof.
  intros Hk. unfold main. rewrite run_app, (retry_loop _ ks None w [] Hk).
  cbn [run app]. unfold step. cbn [at_pc connect_to_ipad].
  match goal with
  | |- context [iteration sensor_reader 0 ?q] =>
      destruct (iteration_sends sensor_reader 0 q)
        as (cht & egt & ts & w' & frame & Hc & He & Hb & ->)
  end.
  unfold_moves. eexists _, _. split; [reflexivity|]. cbn [at_pc conn out].
  split; [reflexivity|]. split; [exists cht, egt, ts; auto|].
  split; [reflexivity|]. split; [rewrite <- app_assoc; reflexivity|].
  rewrite <- app_assoc, retries_app, frames_sent_app, retries_retry_trace.
  split; [cbn; lia|].
  assert (Hnone : forall l, frames_sent (retry_trace l) = []).
  { induction l as [|x l IH]; [reflexivity|]. exact IH. }
  rewrite Hnone. reflexivity.
Qed.

(** X16.  Streaming until a write fails, for any number of frames.  The
    connect succeeds, [k] writes are accepted, each followed by its
    one-second pause, the next write fails and the close succeeds.  Then the
    frames confirmed are exactly 1 to [k]; [k + 1] frames were handed to the
    socket; the trace ends with the failed write, the failure line for frame
    [k + 1], the close and the disconnect line, which counts [k + 1]; and
    [main] is at [connect_to_ipad()] with no connection. *)
Theorem streaming_until_write_fails (sensor_reader : SMTCReader) (w : world) (k : nat) :
  exists (p : process) (pre : list action) (f : list byte),
    run sensor_reader (main w)
      (RConnect Connected :: streaming_script k ++ [RSend SendError; RClose Closed])
    = Some p
    /\ at_pc p = AtConnect
    /\ conn p = None
    /\ frames_confirmed (out p) = seq 1 k
    /\ List.length (frames_sent (out p)) = S k
    /\ writes_accepted (out p) = k
    /\ out p = pre ++ [SendAll f SendError; LogFailed (S k);
                       SockClose Closed; LogDisconnected (S k)].
Proof.
  unfold main. cbn [run]. unfold step at 1. cbn [at_pc connect_to_ipad].
  match goal with
  | |- context [iteration sensor_reader 0 ?q] =>
      destruct (iteration_sends sensor_reader 0 q)
        as (cht & egt & ts & w1 & frame & Hc & He & Hb & ->)
  end.
  unfold_moves. cbn [app].
  assert (Hr : ready (mkProcess (AtSend 1 (snapshot cht egt ts))
                        (Some (Socket IPAD_PORT)) w1 [Connect Connected; LogStreaming])).
  { split; [exists cht, egt, ts; auto|eauto]. }
  destruct (streaming_rounds sensor_reader k 0 _ _ _ _ Hr)
    as (d' & w' & acts & Hrun & Hr' & Hconf & Hsent & Hacc).
  rewrite run_app, Hrun. cbn [Nat.add] in *.
  destruct Hr' as (_ & (f & Hf)).
  cbn [run]. rewrite (step_send_error sensor_reader (S k) d' f _ _ _ Hf).
  unfold step. cbn [at_pc sock_close]. unfold_moves.
  eexists _, ([Connect Connected; LogStreaming] ++ acts), f.
  split; [reflexivity|]. cbn [at_pc conn out].
  split; [reflexivity|]. split; [reflexivity|].
  rewrite <- !app_assoc.
  rewrite !frames_confirmed_app, !frames_sent_app, !writes_accepted_app, !length_app,
    Hconf, Hsent, Hacc.
  cbn. rewrite app_nil_r. repeat split; lia.
Qed.

(** ** The averages of the confirmation line *)

Lemma fadd_between (lo hi lo' hi' : Z) (x y : Q) :
  Z.abs (lo + lo') <= 2 ^ 53 -> Z.abs (hi + hi') <= 2 ^ 53 ->
  (inject_Z lo <= x <= inject_Z hi)%Q ->
  (inject_Z lo' <= y <= inject_Z hi')%Q ->
  (inject_Z (lo + lo') <= fadd x y <= inject_Z (hi + hi'))%Q.
Proof.
  intros Hlo Hhi [Hx1 Hx2] [Hy1 Hy2]. unfold fadd.
  apply rnd_between; [exact Hlo|exact Hhi|].
  rewrite !inject_Z_plus. split; apply Qplus_le_compat; assumption.
Qed.

Lemma average_of_six_between (l : list Q) (lo hi : Z) :
  List.length l = 6%nat ->
  Z.abs (6 * lo) <= 2 ^ 53 -> Z.abs (6 * hi) <= 2 ^ 53 -> lo <= hi ->
  Forall (fun x => (inject_Z lo <= x <= inject_Z hi)%Q) l ->
  exists total : Q,
    py_sum (PyList (map PyFloat l)) = Val total
    /\ (inject_Z lo <= fdiv total 6 <= inject_Z hi)%Q.
Proof.
  intros Hlen Hlo Hhi Hle Hall.
  destruct l as [|c0 [|c1 [|c2 [|c3 [|c4 [|c5 [|]]]]]]]; try discriminate.
  repeat match goal with
         | H : Forall _ (_ :: _) |- _ => inversion H; clear H; subst
         end.
  cbn [rbind map py_sum fold_left].
  eexists. split; [reflexivity|].
  assert (H0 : (inject_Z (0 * lo) <= 0 <= inject_Z (0 * hi))%Q)
    by (split; discriminate).
  assert (B : forall i, 0 <= i <= 6 ->
                        Z.abs (i * lo) <= 2 ^ 53 /\ Z.abs (i * hi) <= 2 ^ 53).
  { intros i Hi. set (P := 2 ^ 53) in *. split; nia. }
  assert (Step : forall i x c,
             0 <= i < 6 ->
             (inject_Z (i * lo) <= x <= inject_Z (i * hi))%Q ->
             (inject_Z lo <= c <= inject_Z hi)%Q ->
             (inject_Z ((i + 1) * lo) <= fadd x c <= inject_Z ((i + 1) * hi))%Q).
  { intros i x c Hi Hx Hc.
    replace ((i + 1) * lo) with (i * lo + lo) by lia.
    replace ((i + 1) * hi) with (i * hi + hi) by lia.
    destruct (B (i + 1) ltac:(lia)) as [B1 B2].
    apply fadd_between; try assumption.
    - replace (i * lo + lo) with ((i + 1) * lo) by lia. exact B1.
    - replace (i * hi + hi) with ((i + 1) * hi) by lia. exact B2. }
  assert (S1 := Step 0 0%Q c0 ltac:(lia) H0 ltac:(assumption)).
  assert (S2 := Step 1 _ c1 ltac:(lia) S1 ltac:(assumption)).
  assert (S3 := Step 2 _ c2 ltac:(lia) S2 ltac:(assumption)).
  assert (S4 := Step 3 _ c3 ltac:(lia) S3 ltac:(assumption)).
  assert (S5 := Step 4 _ c4 ltac:(lia) S4 ltac:(assumption)).
  assert (S6 := Step 5 _ c5 ltac:(lia) S5 ltac:(assumption)).
  change (5 + 1) with 6 in S6.
  set (total := fadd (fadd (fadd (fadd (fadd (fadd 0 c0) c1) c2) c3) c4) c5) in *.
  replace (6 * lo) with (lo * 6) in S6 by lia.
  replace (6 * hi) with (hi * 6) in S6 by lia.
  rewrite !inject_Z_mult in S6. change (inject_Z 6) with 6%Q in S6.
  destruct S6 as [Sl Sh].
  destruct (B 1 ltac:(lia)) as [B1 B2]. rewrite !Z.mul_1_l in B1, B2.
  unfold fdiv. apply rnd_between; [exact B1|exact B2|]. split.
  - apply Qle_shift_div_l; [reflexivity|exact Sl].
  - apply Qle_shift_div_r; [reflexivity|exact Sh].
Qed.

(** X17.  The average printed for a family lies between the smallest and
    the largest of its six readings: if all six are between two whole
    numbers, so is the average (the sum is divided by 6, the number of
    probes). *)
Theorem average6_between (cht egt : list Q) (timestamp : Q) (lo hi : Z) :
  Z.abs (6 * lo) <= 2 ^ 53 -> Z.abs (6 * hi) <= 2 ^ 53 -> lo <= hi ->
  (List.length cht = 6%nat ->
   Forall (fun x => (inject_Z lo <= x <= inject_Z hi)%Q) cht ->
   exists avg : Q,
     average6 (snapshot cht egt timestamp) "cht" = Val avg
     /\ (inject_Z lo <= avg <= inject_Z hi)%Q)
  /\ (List.length egt = 6%nat ->
      Forall (fun x => (inject_Z lo <= x <= inject_Z hi)%Q) egt ->
      exists avg : Q,
        average6 (snapshot cht egt timestamp) "egt" = Val avg
        /\ (inject_Z lo <= avg <= inject_Z hi)%Q).
Proof.
  intros Hlo Hhi Hle. split; intros Hlen Hall;
    destruct (average_of_six_between _ lo hi Hlen Hlo Hhi Hle Hall) as (total & Hs & Hb);
    unfold average6, snapshot, py_dict_get;
    cbn [assoc_get String.eqb Ascii.eqb Bool.eqb rbind];
    [ destruct cht; [discriminate|] | destruct egt; [discriminate|] ];
    cbn [py_truthy map List.length Nat.eqb negb];
    cbn [map] in Hs; rewrite Hs; cbn [rbind]; eauto.
Qed.
End Sender.

(** * A test bench

    One instance of the parameters, on which the properties above are
    exercised and the statements that fail are refuted: arithmetic that is
    exact up to normalisation of the fraction, a decimal [repr] with one
    digit after the point, and a world whose boards read 100 degrees
    Celsius, whose random generator answers one half, and whose clock shows
    the number of calls made. *)

Definition bench_rnd (x : Q) : Q := Qred x.

Fixpoint digits (fuel : nat) (n : Z) : string :=
  match fuel with
  | O => EmptyString
  | S fuel' =>
      let last := String (ascii_of_N (Z.to_N (48 + n mod 10))) EmptyString in
      if n <? 10 then last else (digits fuel' (n / 10) ++ last)%string
  end.

Definition bench_repr (x : Q) : string :=
  let tenths := Qfloor (x * 10) in
  let sign := if tenths <? 0 then "-"%string else EmptyString in
  let whole := digits 20 (Z.abs tenths / 10) in
  let tenth := digits 1 (Z.abs tenths mod 10) in
  (sign ++ whole ++ "." ++ tenth)%string.

Definition bench_world : world :=
  mkWorld (fun _ _ _ => Temp 100) (fun _ => (1 # 2)%Q)
    (fun t => inject_Z (Z.of_nat t)) [].

Definition simulated_reader : SMTCReader := SMTCReader_init false false false.
Definition hardware_reader : SMTCReader := SMTCReader_init true true true.

Lemma bench_rnd_monotone (x y : Q) : (x <= y)%Q -> (bench_rnd x <= bench_rnd y)%Q.
Proof. unfold bench_rnd. rewrite !Qred_correct. trivial. Qed.

Lemma bench_rnd_integer (z : Z) :
  Z.abs z <= 2 ^ 53 -> (bench_rnd (inject_Z z) == inject_Z z)%Q.
Proof. intros _. apply Qred_correct. Qed.

Lemma digits_length (fuel : nat) (n : Z) : (String.length (digits fuel n) <= fuel)%nat.
Proof.
  revert n. induction fuel as [|fuel IH]; intros n; cbn [digits].
  - cbn. lia.
  - destruct (n <? 10); [cbn; lia|].
    rewrite string_length_app. cbn [String.length].
    specialize (IH (n / 10)). lia.
Qed.

Lemma bench_repr_short (x : Q) : (String.length (bench_repr x) <= 32)%nat.
Proof.
  unfold bench_repr. cbv zeta. rewrite !string_length_app.
  pose proof (digits_length 20 (Z.abs (Qfloor (x * 10)) / 10)).
  pose proof (digits_length 1 (Z.abs (Qfloor (x * 10)) mod 10)).
  destruct (Qfloor (x * 10) <? 0); cbn [String.length]; lia.
Qed.

Example bench_repr_350 : bench_repr 350 = "350.0"%string.
Proof. reflexivity. Qed.

Example hardware_reading_212 :
  fst (read_cht_probe bench_rnd hardware_reader 0 bench_world) = Val 212%Q.
Proof. reflexivity. Qed.

(** ** Statements that fail on the code *)

(** C1 as stated fails.  The header's tag is not an input: the frame sent
    for type 100 and an empty payload decodes to tag 0, so it is not the
    protocol's encoding with tag 7; and a frame type that does not fit 32
    bits is not encoded at all, [struct.pack] raises and the function
    returns False with nothing sent. *)
Lemma tag_is_not_an_input :
  snd (send_peertalk_frame bench_repr 100 (PyBytes []) SendOk)
  = [spec_encode 1 100 0 []]
  /\ decode_header (spec_encode 1 100 0 []) = Some (1, 100, 0, 0)
  /\ spec_encode 1 100 0 [] <> spec_encode 1 100 7 []
  /\ send_peertalk_frame bench_repr 4294967296 (PyBytes []) SendOk = (Val false, []).
Proof.
  split; [reflexivity|]. split; [reflexivity|]. split; [|reflexivity].
  vm_compute. discriminate.
Qed.

(** C2 as stated fails.  Without a board the index is never compared with
    the channel map: probe 6 of the CHT family and probe -1 of the EGT
    family return simulated values, not the sentinel. *)
Lemma simulated_read_ignores_probe_index :
  read_cht_probe bench_rnd simulated_reader 6 bench_world
  = (Val 350%Q, external CallRandom bench_world)
  /\ read_egt_probe bench_rnd simulated_reader (-1) bench_world
     = (Val 1350%Q, external CallRandom bench_world)
  /\ ~ (350 == 0)%Q
  /\ ~ (1350 == 0)%Q.
Proof.
  split; [reflexivity|]. split; [reflexivity|]. split; discriminate.
Qed.

(** C5 as stated fails.  On a clock that shows the number of calls made,
    the sweep starts at 0 and the snapshot is stamped 12: the first call of
    the sweep is a probe read and the clock is the thirteenth. *)
Lemma timestamp_is_not_the_sweep_start :
  exists (cht egt : list Q) (w' : world),
    read_temperature_data bench_rnd simulated_reader bench_world
    = (Val (snapshot cht egt 12%Q), w')
    /\ wall_clock bench_world (tick bench_world) = 0%Q
    /\ ~ (12 == 0)%Q
    /\ nth_error (calls w') 0 = Some CallRandom
    /\ nth_error (calls w') 12 = Some CallTime.
Proof.
  exists [350; 350; 350; 350; 350; 350]%Q, [1350; 1350; 1350; 1350; 1350; 1350]%Q.
  eexists. split; [vm_compute; reflexivity|].
  split; [reflexivity|]. split; [discriminate|]. split; reflexivity.
Qed.

(** C3 on a run.  The connect succeeds and a frame is sent; the interrupt
    arrives in the sleep after it; the socket is closed; the next connect
    succeeds and a second frame goes out.  [main] is streaming, it has not
    exited. *)
Lemma interrupted_streaming_resumes :
  exists p : process,
    run bench_rnd bench_repr hardware_reader (main bench_world)
      [RConnect Connected; RSend SendOk; RSleep SleepInterrupt; RClose Closed;
       RConnect Connected; RSend SendOk]
    = Some p
    /\ at_pc p = AtFrameSleep 1
    /\ conn p = Some (Socket 2345)
    /\ List.length (frames_sent (out p)) = 2%nat
    /\ frames_confirmed (out p) = [1%nat; 1%nat].
Proof.
  eexists. split; [vm_compute; reflexivity|]. repeat split.
Qed.

(** ** The properties on the bench *)

Lemma send_peertalk_frame_layout_bench :
  exists frame : list byte,
    snd (send_peertalk_frame bench_repr 100 (PyBytes [x7b; x7d]) SendOk) = [frame]
    /\ frame = be32 1 ++ be32 100 ++ be32 0 ++ be32 2 ++ [x7b; x7d]
    /\ List.length (firstn 16 frame) = 16%nat
    /\ skipn 16 frame = [x7b; x7d]
    /\ decode_header frame = Some (1, 100, 0, Z.of_nat (List.length (skipn 16 frame))).
Proof.
  apply (send_peertalk_frame_layout bench_repr 100 [x7b; x7d] SendOk).
  - unfold UINT32_MAX. lia.
  - unfold UINT32_MAX. simpl. lia.
Defined.

Lemma send_peertalk_frame_tag_zero_bench :
  firstn 4 (skipn 8 (spec_encode 1 100 0 [x7b; x7d])) = [x00; x00; x00; x00]
  /\ exists size : Z,
       decode_header (spec_encode 1 100 0 [x7b; x7d]) = Some (1, 100, 0, size).
Proof.
  apply (send_peertalk_frame_tag_zero bench_repr 100 (PyBytes [x7b; x7d]) SendOk).
  simpl. left. reflexivity.
Defined.

Lemma out_of_range_probe_reads_bench :
  read_cht_probe bench_rnd hardware_reader 6 bench_world = (Val 0%Q, bench_world)
  /\ read_egt_probe bench_rnd hardware_reader 6 bench_world = (Val 0%Q, bench_world).
Proof.
  apply (out_of_range_probe_reads bench_rnd true true true 6 bench_world).
  right. lia.
Defined.

Lemma simulated_readings_bounded_bench :
  (exists (v : Q) (w' : world),
      read_cht_probe bench_rnd simulated_reader 3 bench_world = (Val v, w')
      /\ (300 <= v <= 400)%Q)
  /\ (exists (v : Q) (w' : world),
         read_egt_probe bench_rnd simulated_reader 3 bench_world = (Val v, w')
         /\ (1200 <= v <= 1500)%Q).
Proof.
  apply (simulated_readings_bounded bench_rnd bench_rnd_monotone bench_rnd_integer
           simulated_reader 3 bench_world).
  - reflexivity.
  - reflexivity.
  - intros t. simpl. split; [discriminate|reflexivity].
Defined.

Lemma third_write_failure_reconnects_bench :
  exists (p : process) (f1 f2 f3 : list byte) (a1 b1 a2 b2 : Q),
    run bench_rnd bench_repr hardware_reader (main bench_world)
      [RConnect Connected; RSend SendOk; RSleep Slept; RSend SendOk; RSleep Slept;
       RSend SendError; RClose Closed]
    = Some p
    /\ at_pc p = AtConnect
    /\ conn p = None
    /\ frames_confirmed (out p) = [1%nat; 2%nat]
    /\ out p
       = [Connect Connected; LogStreaming;
          SendAll f1 SendOk; LogFrame 1 (hardware_available hardware_reader) a1 b1;
          Sleep 1 Slept;
          SendAll f2 SendOk; LogFrame 2 (hardware_available hardware_reader) a2 b2;
          Sleep 1 Slept;
          SendAll f3 SendError; LogFailed 3;
          SockClose Closed; LogDisconnected 3]
    /\ (forall k : connect_reply,
           step bench_rnd bench_repr hardware_reader p (RConnect k) <> None).
Proof.
  apply (third_write_failure_reconnects bench_rnd bench_repr bench_repr_short
           hardware_reader bench_world).
Defined.

(** Three failed connects, one of each kind, then an interrupt in the pause
    after a fourth. *)
Lemma connect_failures_retry_forever_bench :
  run bench_rnd bench_repr simulated_reader (main bench_world)
    (retry_script [ConnectTimeout; ConnectRefused; ConnectError])
  = Some (mkProcess AtConnect None bench_world
            (retry_trace [ConnectTimeout; ConnectRefused; ConnectError]))
  /\ existsb is_interrupt [RConnect ConnectTimeout; RSleep SleepInterrupt] = true.
Proof.
  pose proof (connect_failures_retry_forever bench_rnd bench_repr simulated_reader
                bench_world) as [Hloop Hsafe].
  split.
  - apply Hloop. reflexivity.
  - destruct (Hsafe [RConnect ConnectTimeout; RSleep SleepInterrupt]
                (mkProcess (Exited 0) None bench_world
                   [Connect ConnectTimeout; LogRetrying; Sleep 5 SleepInterrupt;
                    LogShutdown])
                eq_refl eq_refl) as (_ & _ & Hexit & _).
    apply Hexit. reflexivity.
Defined.

Definition bench_stream : option process :=
  run bench_rnd bench_repr simulated_reader (main bench_world)
    [RConnect Connected; RSend SendOk].

Definition bench_frame : list byte :=
  match bench_stream with
  | Some p => hd [] (frames_sent (out p))
  | None => []
  end.

Lemma temperature_frames_carry_snapshot_json_bench :
  exists (cht egt : list Q) (timestamp : Q),
    List.length cht = 6%nat
    /\ List.length egt = 6%nat
    /\ bench_frame
       = spec_encode 1 100 0 (encode_utf8 (snapshot_json bench_repr cht egt timestamp))
    /\ decode_header bench_frame
       = Some (1, 100, 0,
               Z.of_nat (List.length
                           (encode_utf8 (snapshot_json bench_repr cht egt timestamp)))).
Proof.
  apply (temperature_frames_carry_snapshot_json bench_rnd bench_repr simulated_reader
           bench_world [RConnect Connected; RSend SendOk]
           (match bench_stream with Some p => p | None => main bench_world end)).
  - vm_compute. reflexivity.
  - vm_compute. left. reflexivity.
Defined.

Example bench_frame_payload :
  skipn 16 bench_frame
  = encode_utf8 (snapshot_json bench_repr
                   [350; 350; 350; 350; 350; 350]%Q
                   [1350; 1350; 1350; 1350; 1350; 1350]%Q 12%Q).
Proof. vm_compute. reflexivity. Qed.

(** ** More of the script on the bench *)

(** A tour of [main]: a connect that times out, a connection on which one
    write is accepted and the next fails, then a connection that is
    interrupted in the pause after its first frame and again while the
    socket is closed. *)
Definition bench_tour : list reply :=
  [RConnect ConnectTimeout; RSleep Slept;
   RConnect Connected; RSend SendOk; RSleep Slept; RSend SendError; RClose Closed;
   RConnect Connected; RSend SendOk; RSleep SleepInterrupt; RClose CloseInterrupt].

Definition bench_tour_end : process :=
  match run bench_rnd bench_repr hardware_reader (main bench_world) bench_tour with
  | Some p => p
  | None => main bench_world
  end.

(** A world in which the board fails at the third call, and a driver whose
    EGT board refuses channel 3. *)
Definition faulty_world : world :=
  mkWorld (fun t _ _ => if Nat.eqb t 2 then Fault else Temp 100)
    (fun _ => (1 # 2)%Q) (fun t => inject_Z (Z.of_nat t)) [].

Definition picky_driver : driver :=
  mkDriver (fun _ => true) (fun stack channel => negb ((stack =? 0) && (channel =? 3))).

Lemma bench_tour_runs :
  run bench_rnd bench_repr hardware_reader (main bench_world) bench_tour
  = Some bench_tour_end.
Proof. vm_compute. reflexivity. Qed.

Example bench_tour_exits : at_pc bench_tour_end = Exited 0.
Proof. vm_compute. reflexivity. Qed.

Lemma send_peertalk_frame_refuses_out_of_range_bench :
  send_peertalk_frame bench_repr (-1) (PyBytes []) SendOk = (Val false, []).
Proof.
  apply (send_peertalk_frame_refuses_out_of_range bench_repr (-1) [] SendOk).
  left. lia.
Defined.

Lemma parse_frame_after_build_bench :
  exists payload : list byte,
    parse_frame (bench_frame ++ [x01; x02]) = Some (1, 100, 0, payload, [x01; x02])
    /\ List.length bench_frame = (16 + List.length payload)%nat
    /\ (exists s,
           json_dumps bench_repr
             (snapshot [350; 350; 350; 350; 350; 350]%Q
                [1350; 1350; 1350; 1350; 1350; 1350]%Q 12%Q) = Val s
           /\ payload = encode_utf8 s).
Proof.
  apply (parse_frame_after_build bench_repr 100
           (snapshot [350; 350; 350; 350; 350; 350]%Q
              [1350; 1350; 1350; 1350; 1350; 1350]%Q 12%Q)
           bench_frame [x01; x02]).
  vm_compute. reflexivity.
Defined.

Lemma parse_stream_of_frames_bench :
  parse_stream 2 (spec_encode 1 100 0 [x7b; x7d] ++ spec_encode 1 7 0 [] ++ [])
  = Some [(100, [x7b; x7d]); (7, [])].
Proof.
  apply (parse_stream_of_frames bench_repr [(100, [x7b; x7d]); (7, [])]
           [spec_encode 1 100 0 [x7b; x7d]; spec_encode 1 7 0 []]).
  repeat constructor.
Defined.

Lemma celsius_to_fahrenheit_bench :
  (forall c1 c2 : Q,
      (c1 <= c2)%Q ->
      (celsius_to_fahrenheit bench_rnd c1 <= celsius_to_fahrenheit bench_rnd c2)%Q)
  /\ (forall k : Z,
         Z.abs (45 * k) + 32 <= 2 ^ 53 ->
         (celsius_to_fahrenheit bench_rnd (inject_Z (5 * k)) == inject_Z (9 * k + 32))%Q).
Proof.
  apply (celsius_to_fahrenheit_monotone_exact bench_rnd bench_rnd_monotone
           bench_rnd_integer).
Defined.

Lemma faulty_probe_is_isolated_bench :
  exists (cht1 egt1 cht2 egt2 : list Q) (timestamp : Q),
    fst (read_temperature_data bench_rnd hardware_reader bench_world)
    = Val (snapshot cht1 egt1 timestamp)
    /\ fst (read_temperature_data bench_rnd hardware_reader faulty_world)
       = Val (snapshot cht2 egt2 timestamp)
    /\ (forall i : nat, (i + tick bench_world)%nat <> 2%nat ->
                        nth_error cht1 i = nth_error cht2 i)
    /\ (forall i : nat, (i + (6 + tick bench_world))%nat <> 2%nat ->
                        nth_error egt1 i = nth_error egt2 i).
Proof.
  apply (faulty_probe_is_isolated bench_rnd true true true bench_world faulty_world 2).
  - reflexivity.
  - reflexivity.
  - reflexivity.
  - intros t' stack channel Ht. simpl.
    destruct (Nat.eqb_spec t' 2); [contradiction|reflexivity].
Defined.

Example faulty_world_third_probe :
  fst (read_temperature_data bench_rnd hardware_reader faulty_world)
  = Val (snapshot [212; 212; 0; 212; 212; 212]%Q
           [212; 212; 212; 212; 212; 212]%Q 12%Q).
Proof. vm_compute. reflexivity. Qed.

Lemma SMTCReader_construct_configures_bench :
  In (SetSensorType 0 3 3 (accepts_type picky_driver 0 3))
    (snd (SMTCReader_construct true picky_driver))
  /\ (In (SetSensorType 1 3 3 (accepts_type picky_driver 1 3))
        (snd (SMTCReader_construct true picky_driver))
      <-> egt_sensor (fst (SMTCReader_construct true picky_driver)) = None
          \/ accepts_type picky_driver 0 3 = true).
Proof.
  destruct (SMTCReader_construct_configures true picky_driver) as (_ & _ & Hegt & Hcht).
  split.
  - apply Hegt; [reflexivity|lia].
  - apply Hcht; [reflexivity|lia].
Defined.

Lemma main_stops_only_on_interrupt_bench :
  (forall code : Z, at_pc bench_tour_end = Exited code ->
                    code = 0 /\ existsb is_interrupt bench_tour = true)
  /\ (forall e : pyexn, at_pc bench_tour_end = Uncaught e ->
                        e = KeyboardInterrupt /\ In (RClose CloseError) bench_tour
                        /\ existsb is_interrupt bench_tour = true)
  /\ (existsb is_interrupt bench_tour = false ->
      exists r : reply,
        is_interrupt r = false
        /\ step bench_rnd bench_repr hardware_reader bench_tour_end r <> None).
Proof.
  apply (main_stops_only_on_interrupt bench_rnd bench_repr hardware_reader bench_world
           bench_tour bench_tour_end).
  exact bench_tour_runs.
Defined.

Lemma one_connection_at_a_time_bench :
  link false (out bench_tour_end) = Some (is_streaming (at_pc bench_tour_end)).
Proof.
  apply (one_connection_at_a_time bench_rnd bench_repr hardware_reader bench_world
           bench_tour bench_tour_end).
  exact bench_tour_runs.
Defined.

Lemma frame_numbers_count_confirmations_bench :
  exists k : nat,
    numbering 0 (out bench_tour_end) = Some k
    /\ match at_pc bench_tour_end with
       | AtSend n _ => n = S k
       | AtFrameSleep n => n = k
       | AtClose n => n = k \/ n = S k
       | _ => True
       end.
Proof.
  apply (frame_numbers_count_confirmations bench_rnd bench_repr hardware_reader
           bench_world bench_tour bench_tour_end).
  exact bench_tour_runs.
Defined.

Lemma confirmations_match_accepted_writes_bench :
  List.length (frames_confirmed (out bench_tour_end)) = writes_accepted (out bench_tour_end)
  /\ (writes_accepted (out bench_tour_end)
      <= List.length (frames_sent (out bench_tour_end)))%nat.
Proof.
  apply (confirmations_match_accepted_writes bench_rnd bench_repr hardware_reader
           bench_world bench_tour bench_tour_end).
  exact bench_tour_runs.
Defined.

Example bench_tour_counts :
  frames_confirmed (out bench_tour_end) = [1%nat; 1%nat]
  /\ List.length (frames_sent (out bench_tour_end)) = 3%nat
  /\ numbering 0 (out bench_tour_end) = Some 1%nat.
Proof. vm_compute. repeat split. Qed.

Lemma connect_succeeds_after_failures_bench :
  exists (p : process) (d : pyval),
    run bench_rnd bench_repr simulated_reader (main bench_world)
      (retry_script [ConnectTimeout; ConnectRefused] ++ [RConnect Connected]) = Some p
    /\ at_pc p = AtSend 1 d
    /\ snapshot_shaped d
    /\ conn p = Some (Socket 2345)
    /\ out p = retry_trace [ConnectTimeout; ConnectRefused]
                 ++ [Connect Connected; LogStreaming]
    /\ retries (out p) = List.length [ConnectTimeout; ConnectRefused]
    /\ frames_sent (out p) = [].
Proof.
  apply (connect_succeeds_after_failures bench_rnd bench_repr bench_repr_short
           simulated_reader bench_world [ConnectTimeout; ConnectRefused]).
  reflexivity.
Defined.

Lemma streaming_until_write_fails_bench :
  exists (p : process) (pre : list action) (f : list byte),
    run bench_rnd bench_repr simulated_reader (main bench_world)
      (RConnect Connected :: streaming_script 3 ++ [RSend SendError; RClose Closed])
    = Some p
    /\ at_pc p = AtConnect
    /\ conn p = None
    /\ frames_confirmed (out p) = seq 1 3
    /\ List.length (frames_sent (out p)) = 4%nat
    /\ writes_accepted (out p) = 3%nat
    /\ out p = pre ++ [SendAll f SendError; LogFailed 4;
                       SockClose Closed; LogDisconnected 4].
Proof.
  apply (streaming_until_write_fails bench_rnd bench_repr bench_repr_short
           simulated_reader bench_world 3).
Defined.

Lemma average6_between_bench :
  (List.length [350; 350; 350; 350; 350; 350]%Q = 6%nat ->
   Forall (fun x => (inject_Z 300 <= x <= inject_Z 400)%Q)
     [350; 350; 350; 350; 350; 350]%Q ->
   exists avg : Q,
     average6 bench_rnd
       (snapshot [350; 350; 350; 350; 350; 350]%Q
          [350; 350; 350; 350; 350; 350]%Q 12%Q) "cht" = Val avg
     /\ (inject_Z 300 <= avg <= inject_Z 400)%Q)
  /\ (List.length [350; 350; 350; 350; 350; 350]%Q = 6%nat ->
      Forall (fun x => (inject_Z 300 <= x <= inject_Z 400)%Q)
        [350; 350; 350; 350; 350; 350]%Q ->
      exists avg : Q,
        average6 bench_rnd
          (snapshot [350; 350; 350; 350; 350; 350]%Q
             [350; 350; 350; 350; 350; 350]%Q 12%Q) "egt" = Val avg
        /\ (inject_Z 300 <= avg <= inject_Z 400)%Q).
Proof.
  apply (average6_between bench_rnd bench_rnd_monotone bench_rnd_integer
           [350; 350; 350; 350; 350; 350]%Q [350; 350; 350; 350; 350; 350]%Q 12%Q
           300 400).
  - simpl. lia.
  - simpl. lia.
  - lia.
Defined.
